(** * searchmark: the in-memory trademark search engine

    A shallow embedding of [app/db/database.py] (class [SearchmarkDatabase]:
    [search_searchmarks] and [get_statistics]) and of the handler of
    [app/routers/searchmarks.py] that calls it, with the properties the
    specification states about the engine and further properties read off
    the code.  File loading, the pandas export and the response schema are
    left out.

    Modelling choices.
    - A Python [str] is a [string]; [lower], [strip] and [int] are Python's,
      restricted to ASCII (bytes above 127 are left alone by [lower], are no
      whitespace and no digits); CPython's bound on the number of digits
      [int] reads is left out.
    - A JSON value as [json.load] builds it is a [Value]; numbers, integer or
      floating, are the rationals they denote.
    - [self.data] is a list of dict OBJECTS.  [self.data.copy()] copies the
      list, not the dicts, so the working list holds references into the same
      objects: the object store is a [list] of dicts and a reference is an
      index into it.
    - An exception is a [Raise] result; [DanglingRef] is the one result
      that is no Python exception: a reference without its object, which
      the working lists never hold.
    - [rapidfuzz.fuzz.ratio] is a library function: the engine is a Section
      over it; [indel_ratio] is the exact value of the formula the library
      documents and instantiates the Section in the examples. *)

From Stdlib Require Import QArith Qminmax ZArith String Ascii List Lia Sorted.
From stdpp Require Import gmap strings list fin_maps sorting.

Set Warnings "-register-all".

Local Open Scope string_scope.

(** ** Python values *)

Inductive Value : Type :=
| VNone
| VBool (b : bool)
| VNum (q : Q)
| VStr (s : string)
| VList (l : list Value)
| VDict (d : list (string * Value)).

(** A dict object with string keys (a JSON object). *)
Abbreviation PyDict := (gmap string Value).

Inductive PyError : Type :=
| AttributeError
| TypeError
| KeyError
| DanglingRef.

Inductive result (A : Type) : Type :=
| Ok (a : A)
| Raise (e : PyError).

Arguments Ok {A} a.
Arguments Raise {A} e.

Definition bindR {A B} (m : result A) (f : A -> result B) : result B :=
  match m with
  | Ok a => f a
  | Raise e => Raise e
  end.

Notation "'let?' x := m 'in' k" := (bindR m (fun x => k))
  (at level 10, x name, m at level 100, k at level 200,
   format "'[v' 'let?'  x  :=  m  'in' '/' k ']'").

Definition is_ok {A} (r : result A) : bool :=
  match r with Ok _ => true | Raise _ => false end.

(** *** Strings *)

Definition str_truthy (s : string) : bool :=
  match s with EmptyString => false | String _ _ => true end.

Definition lower_char (c : ascii) : ascii :=
  let n := nat_of_ascii c in
  if (65 <=? n)%nat && (n <=? 90)%nat then ascii_of_nat (n + 32) else c.

(** [s.lower()] *)
Fixpoint lower (s : string) : string :=
  match s with
  | EmptyString => EmptyString
  | String c s' => String (lower_char c) (lower s')
  end.

Fixpoint startswith (p s : string) : bool :=
  match p, s with
  | EmptyString, _ => true
  | String a p', String b s' => Ascii.eqb a b && startswith p' s'
  | String _ _, EmptyString => false
  end.

(** [x in s] for two strings: [x] occurs in [s] as a contiguous block. *)
Fixpoint str_contains (x s : string) : bool :=
  startswith x s ||
  match s with
  | EmptyString => false
  | String _ s' => str_contains x s'
  end.

(** The characters [str.strip()] removes. *)
Definition is_space (c : ascii) : bool :=
  let n := nat_of_ascii c in
  ((9 <=? n)%nat && (n <=? 13)%nat) || ((28 <=? n)%nat && (n <=? 32)%nat).

Fixpoint lstrip (s : string) : string :=
  match s with
  | EmptyString => EmptyString
  | String c s' => if is_space c then lstrip s' else s
  end.

Fixpoint rstrip (s : string) : string :=
  match s with
  | EmptyString => EmptyString
  | String c s' =>
      match rstrip s' with
      | EmptyString => if is_space c then EmptyString else String c EmptyString
      | r => String c r
      end
  end.

(** [s.strip()] *)
Definition strip (s : string) : string := rstrip (lstrip s).

(** [s.split(',')]: never the empty list. *)
Fixpoint split_comma (s : string) : list string :=
  match s with
  | EmptyString => [EmptyString]
  | String c s' =>
      if Ascii.eqb c "," then EmptyString :: split_comma s'
      else match split_comma s' with
           | t :: ts => String c t :: ts
           | [] => [String c EmptyString]
           end
  end.

Definition digit_of (c : ascii) : option Z :=
  let n := nat_of_ascii c in
  if (48 <=? n)%nat && (n <=? 57)%nat then Some (Z.of_nat (n - 48)) else None.

(** The digits of an integer literal given to [int()]: decimal digits, single
    underscores allowed between two digits. *)
Fixpoint int_digits (acc : Z) (after_digit : bool) (s : string) : option Z :=
  match s with
  | EmptyString => if after_digit then Some acc else None
  | String c s' =>
      match digit_of c with
      | Some d => int_digits (acc * 10 + d) true s'
      | None =>
          if Ascii.eqb c "_" && after_digit then int_digits acc false s'
          else None
      end
  end.

(** [int(s)]: [None] stands for [ValueError]. *)
Definition py_int (s : string) : option Z :=
  match strip s with
  | String "-" s' => Z.opp <$> int_digits 0 false s'
  | String "+" s' => int_digits 0 false s'
  | s' => int_digits 0 false s'
  end.

(** *** Truthiness, containment, comparison *)

Definition truthy (v : Value) : bool :=
  match v with
  | VNone => false
  | VBool b => b
  | VNum q => negb (Qeq_bool q 0)
  | VStr s => str_truthy s
  | VList l => match l with [] => false | _ => true end
  | VDict d => match d with [] => false | _ => true end
  end.

(** [d.get(key)] *)
Definition dict_get (d : PyDict) (key : string) : Value :=
  match d !! key with
  | Some v => v
  | None => VNone
  end.

(** [d[key]] *)
Definition dict_item (d : PyDict) (key : string) : result Value :=
  match d !! key with
  | Some v => Ok v
  | None => Raise KeyError
  end.

(** [v == s] for a string [s]. *)
Definition eq_str (v : Value) (s : string) : bool :=
  match v with
  | VStr t => String.eqb t s
  | _ => false
  end.

(** [x in v] for a string [x]: substring of a string, element of a list, key
    of a dict; anything else is not a container. *)
Definition py_in (x : string) (v : Value) : result bool :=
  match v with
  | VStr s => Ok (str_contains x s)
  | VList l => Ok (existsb (fun e => eq_str e x) l)
  | VDict d => Ok (existsb (fun kv => String.eqb kv.1 x) d)
  | VNone | VBool _ | VNum _ => Raise TypeError
  end.

(** [v.lower()] *)
Definition py_lower (v : Value) : result string :=
  match v with
  | VStr s => Ok (lower s)
  | _ => Raise AttributeError
  end.

(** [max(a, b)]: the first argument unless the second is greater. *)
Definition py_max (a b : Q) : Q :=
  match a ?= b with
  | Lt => b
  | _ => a
  end.

(** [results[:limit]] *)
Definition slice_to {A} (results : list A) (limit : option Z) : list A :=
  match limit with
  | None => results
  | Some n =>
      if (0 <=? n)%Z then take (Z.to_nat n) results
      else take (Z.to_nat (Z.of_nat (length results) + n)) results
  end.

(** ** The object store *)

Abbreviation ref := nat.
Abbreviation Store := (list (gmap string Value)).

Definition M (A : Type) : Type := Store -> result (A * Store).

Definition retM {A} (a : A) : M A := fun σ => Ok (a, σ).

Definition bindM {A B} (m : M A) (f : A -> M B) : M B := fun σ =>
  match m σ with
  | Ok (a, σ') => f a σ'
  | Raise e => Raise e
  end.

Notation "'let*' x := m 'in' k" := (bindM m (fun x => k))
  (at level 10, x name, m at level 100, k at level 200,
   format "'[v' 'let*'  x  :=  m  'in' '/' k ']'").

Definition lift {A} (r : result A) : M A := fun σ =>
  match r with
  | Ok a => Ok (a, σ)
  | Raise e => Raise e
  end.

(** Following a reference: it always finds its object in Python. *)
Definition deref (item : ref) : M PyDict := fun σ =>
  match σ !! item with
  | Some d => Ok (d, σ)
  | None => Raise DanglingRef
  end.

(** [item[key] = v]: writes into the object itself. *)
Definition setitem (item : ref) (key : string) (v : Value) : M unit := fun σ =>
  match σ !! item with
  | Some d => Ok (tt, <[item := <[key := v]> d]> σ)
  | None => Raise DanglingRef
  end.

(** [self.data.copy()]: a new list of the same objects. *)
Definition data_copy : M (list ref) := fun σ => Ok (seq 0 (length σ), σ).

(** [[item for item in results if cond(item)]] *)
Fixpoint comprehension (cond : PyDict -> result bool) (results : list ref)
  : M (list ref) :=
  match results with
  | [] => retM []
  | item :: rest =>
      let* d := deref item in
      let* b := lift (cond d) in
      let* rest' := comprehension cond rest in
      retM (if b then item :: rest' else rest')
  end.

(** ** Queries *)

Record Query : Type := mkQuery {
  productName : option string;
  status : option string;
  applicationNumber : option string;
  publicationNumber : option string;
  registrationNumber : option string;
  internationalRegNumbers : option string;
  priorityClaimNumList : option string;
  asignProductMainCodeList : option string;
  viennaCodeList : option string;
  limit : option Z;
  use_fuzzy_search : bool
}.

(** [if arg:] for an [Optional[str]] argument: the string when it is given
    and not empty. *)
Definition given (arg : option string) : option string :=
  match arg with
  | Some s => if str_truthy s then Some s else None
  | None => None
  end.

(** ** Filter conditions *)

(** [item.get(key) and value in item[key]] *)
Definition field_contains (key value : string) (item : PyDict) : result bool :=
  if truthy (dict_get item key) then
    let? v := dict_item item key in py_in value v
  else Ok false.

(** The condition of the plain name filter (lines 105-106):
    [(... and productName in item['productName']) or
     (... and productName in item['productNameEng'])]. *)
Definition name_cond (productName : string) (item : PyDict) : result bool :=
  let? b := field_contains "productName" productName item in
  if b then Ok true else field_contains "productNameEng" productName item.

(** [item.get('registerStatus') == status] *)
Definition status_cond (status : string) (item : PyDict) : result bool :=
  Ok (eq_str (dict_get item "registerStatus") status).

(** Lines 120-128, one [code] of [code_list]. *)
Definition format_code (code : string) : string :=
  match py_int code with
  | Some num_code => if (num_code <? 10)%Z then String "0" code else code
  | None => code
  end.

(** Line 116. *)
Definition code_list (arg : string) : list string :=
  strip <$> split_comma arg.

(** Lines 119-128. *)
Definition formatted_codes (arg : string) : list string :=
  format_code <$> code_list arg.

(** [any(code in v for code in codes)] *)
Fixpoint any_in (codes : list string) (v : Value) : result bool :=
  match codes with
  | [] => Ok false
  | code :: codes' =>
      let? b := py_in code v in
      if b then Ok true else any_in codes' v
  end.

(** Lines 132-133. *)
Definition code_cond (codes : list string) (item : PyDict) : result bool :=
  if truthy (dict_get item "asignProductMainCodeList") then
    let? v := dict_item item "asignProductMainCodeList" in any_in codes v
  else Ok false.

(** ** Ranking *)

(** A stable sort on the key, greatest first: what
    [sorted(..., key=..., reverse=True)] returns. *)
Fixpoint insert_desc {A} (x : Q * A) (l : list (Q * A)) : list (Q * A) :=
  match l with
  | [] => [x]
  | y :: l' =>
      if Qle_bool (fst y) (fst x) then x :: y :: l' else y :: insert_desc x l'
  end.

Definition sort_desc {A} (l : list (Q * A)) : list (Q * A) :=
  foldr insert_desc [] l.

(** [x['similarity_score']] as a sort key; the loop of lines 83-97 has just
    stored a number there. *)
Definition score_key (d : PyDict) : result Q :=
  let? v := dict_item d "similarity_score" in
  match v with
  | VNum q => Ok q
  | VBool b => Ok (if b then 1%Q else 0%Q)
  | _ => Raise TypeError
  end.

Fixpoint with_keys (results : list ref) : M (list (Q * ref)) :=
  match results with
  | [] => retM []
  | x :: rest =>
      let* d := deref x in
      let* k := lift (score_key d) in
      let* rest' := with_keys rest in
      retM ((k, x) :: rest')
  end.

(** Line 100. *)
Definition sorted_by_score (fuzzy_results : list ref) : M (list ref) :=
  let* keyed := with_keys fuzzy_results in
  retM (snd <$> sort_desc keyed).

(** ** Statistics *)

(** What a dict accepts as a key. *)
Definition hashable (v : Value) : bool :=
  match v with
  | VList _ | VDict _ => false
  | _ => true
  end.

Definition num_of (v : Value) : option Q :=
  match v with
  | VBool b => Some (if b then 1%Q else 0%Q)
  | VNum q => Some q
  | _ => None
  end.

(** Equality of two dict keys: [True == 1 == 1.0]. *)
Definition key_eqb (a b : Value) : bool :=
  match a, b with
  | VNone, VNone => true
  | VStr s, VStr t => String.eqb s t
  | _, _ =>
      match num_of a, num_of b with
      | Some x, Some y => Qeq_bool x y
      | _, _ => false
      end
  end.

(** A dict with values as keys, in insertion order. *)
Abbreviation Counts := (list (Value * Z)).

(** [counts.get(key, default)] *)
Fixpoint counts_get (counts : Counts) (key : Value) (default : Z) : Z :=
  match counts with
  | [] => default
  | (k, n) :: counts' =>
      if key_eqb k key then n else counts_get counts' key default
  end.

(** [counts[key] = n] *)
Fixpoint counts_set (counts : Counts) (key : Value) (n : Z) : Counts :=
  match counts with
  | [] => [(key, n)]
  | (k, m) :: counts' =>
      if key_eqb k key then (k, n) :: counts'
      else (k, m) :: counts_set counts' key n
  end.

(** The category of records without a status, line 193. *)
Definition unclassified : string := "미분류".

(** [item.get('registerStatus', '미분류')] *)
Definition status_of (item : PyDict) : Value :=
  match item !! "registerStatus" with
  | Some v => v
  | None => VStr unclassified
  end.

(** Lines 192-194. *)
Fixpoint count_loop (data : list PyDict) (status_counts : Counts)
  : result Counts :=
  match data with
  | [] => Ok status_counts
  | item :: rest =>
      let status := status_of item in
      if hashable status then
        count_loop rest
          (counts_set status_counts status
             (counts_get status_counts status 0 + 1)%Z)
      else Raise TypeError
  end.

(** The dict [get_statistics] returns: ["status_counts"] may be missing. *)
Record Statistics : Type := mkStatistics {
  total : Z;
  status_counts : option Counts
}.

(** [get_statistics], lines 188-199. *)
Definition get_statistics (data : Store) : result Statistics :=
  match data with
  | [] => Ok (mkStatistics 0 None)
  | _ =>
      let? counts := count_loop data [] in
      Ok (mkStatistics (Z.of_nat (length data)) (Some counts))
  end.

(** The record behind [i] satisfies [cond]. *)
Definition passes (cond : PyDict -> result bool) (σ : Store) (i : ref) : bool :=
  match σ !! i with
  | Some d => match cond d with Ok b => b | Raise _ => false end
  | None => false
  end.

Section Engine.

(** [fuzz.ratio] of rapidfuzz. *)
Variable fuzz_ratio : string -> string -> Q.

(** Lines 84-91, one of the two name fields. *)
Definition name_score (productName key : string) (item : PyDict) : result Q :=
  if truthy (dict_get item key) then
    let? v := dict_item item key in
    let? s := py_lower v in
    Ok (fuzz_ratio productName s)
  else Ok 0%Q.

(** Lines 82-97: the loop, with [fuzzy_results] as accumulator. *)
Fixpoint fuzzy_loop (productName : string) (results fuzzy_results : list ref)
  : M (list ref) :=
  match results with
  | [] => retM fuzzy_results
  | item :: rest =>
      let* d := deref item in
      let* korean_score := lift (name_score productName "productName" d) in
      let* eng_score := lift (name_score productName "productNameEng" d) in
      let similarity_score := py_max korean_score eng_score in
      let* fuzzy_results' :=
        (if Qle_bool 40%Q similarity_score then
           let* _ := setitem item "similarity_score" (VNum similarity_score) in
           retM (fuzzy_results ++ [item])%list
         else retM fuzzy_results) in
      fuzzy_loop productName rest fuzzy_results'
  end.

(** Lines 78-107. *)
Definition name_filter (q : Query) (results : list ref) : M (list ref) :=
  match given (productName q) with
  | Some productName =>
      let productName := lower productName in
      if use_fuzzy_search q then
        let* fuzzy_results := fuzzy_loop productName results [] in
        sorted_by_score fuzzy_results
      else comprehension (name_cond productName) results
  | None => retM results
  end.

(** One [if arg: results = [...]] block. *)
Definition filter_if (arg : option string) (cond : string -> PyDict -> result bool)
    (results : list ref) : M (list ref) :=
  match given arg with
  | Some value => comprehension (cond value) results
  | None => retM results
  end.

(** Lines 74-177: the working list and the filter passes. *)
Definition filter_passes (q : Query) : M (list ref) :=
  let* results := data_copy in
  let* results := name_filter q results in
  let* results := filter_if (status q) status_cond results in
  let* results := filter_if (asignProductMainCodeList q)
              (fun arg => code_cond (formatted_codes arg)) results in
  let* results := filter_if (applicationNumber q)
              (field_contains "applicationNumber") results in
  let* results := filter_if (publicationNumber q)
              (field_contains "publicationNumber") results in
  let* results := filter_if (registrationNumber q)
              (field_contains "registrationNumber") results in
  let* results := filter_if (internationalRegNumbers q)
              (field_contains "internationalRegNumbers") results in
  let* results := filter_if (priorityClaimNumList q)
              (field_contains "priorityClaimNumList") results in
  let* results := filter_if (viennaCodeList q)
              (field_contains "viennaCodeList") results in
  retM results.

(** [search_searchmarks]: the passes, then [return results[:limit]]
    (line 179). *)
Definition search_searchmarks (q : Query) : M (list ref) :=
  let* results := filter_passes q in
  retM (slice_to results (limit q)).

(** *** The similarity score in the words of the specification

    The similarity of the query with one name field, both in lower case; a
    missing field (absent, null or empty) counts 0. *)
Definition field_similarity (query : string) (name : option Value) : Q :=
  match name with
  | Some (VStr s) =>
      if str_truthy s then fuzz_ratio (lower query) (lower s) else 0%Q
  | _ => 0%Q
  end.

(** The score of a record: the greater of the two. *)
Definition best_similarity (query : string) (d : PyDict) : Q :=
  Qmax (field_similarity query (d !! "productName"))
       (field_similarity query (d !! "productNameEng")).

(** The record behind [i] reaches the threshold of line 95. *)
Definition hit (query : string) (σ : Store) (i : ref) : bool :=
  match σ !! i with
  | Some d => Qle_bool 40%Q (best_similarity query d)
  | None => false
  end.

(** A record with its score written on it. *)
Definition mark (query : string) (d : PyDict) : PyDict :=
  <["similarity_score" := VNum (best_similarity query d)]> d.

(** What the loop of lines 83-97 leaves of a record. *)
Definition rescore (query : string) (d : PyDict) : PyDict :=
  if Qle_bool 40%Q (best_similarity query d) then mark query d else d.

(** The store a query leaves behind. *)
Definition final_store (q : Query) (σ : Store) : Store :=
  match given (productName q) with
  | Some query => if use_fuzzy_search q then rescore query <$> σ else σ
  | None => σ
  end.

(** The records the name filter lets through. *)
Definition name_kept (q : Query) (σ : Store) (i : ref) : bool :=
  match given (productName q) with
  | Some query =>
      if use_fuzzy_search q then hit query σ i
      else passes (name_cond (lower query)) σ i
  | None => true
  end.

End Engine.

(** ** Datasets as the data model types them

    A name is absent, null or a string; a number or code field is absent,
    null, a string or a list. *)

Definition is_name (o : option Value) : bool :=
  match o with
  | None | Some VNone | Some (VStr _) => true
  | _ => false
  end.

Definition is_text_or_list (o : option Value) : bool :=
  match o with
  | None | Some VNone | Some (VStr _) | Some (VList _) => true
  | _ => false
  end.

(** The fields the substring criteria and the code-list criterion read. *)
Definition searched_fields : list string :=
  ["asignProductMainCodeList"; "applicationNumber"; "publicationNumber";
   "registrationNumber"; "internationalRegNumbers"; "priorityClaimNumList";
   "viennaCodeList"].

Definition record_typed (d : PyDict) : bool :=
  is_name (d !! "productName") && is_name (d !! "productNameEng") &&
  forallb (fun key => is_text_or_list (d !! key)) searched_fields.

Definition dataset_typed (data : Store) : bool := forallb record_typed data.

(** Every status can be a dict key (a string or null can; a list or a dict
    cannot). *)
Definition statuses_hashable (data : Store) : bool :=
  forallb (fun d => hashable (status_of d)) data.

(** ** Vocabulary of the statements *)

(** *** Runs *)

(** The result of a run, when there is one. *)
Definition returned {A} (r : result (A * Store)) : option A :=
  match r with
  | Ok (a, _) => Some a
  | Raise _ => None
  end.

(** The store a run leaves, when it returns. *)
Definition store_after {A} (r : result (A * Store)) : option Store :=
  match r with
  | Ok (_, σ) => Some σ
  | Raise _ => None
  end.

(** *** Queries *)

Definition with_limit (q : Query) (l : option Z) : Query :=
  mkQuery (productName q) (status q) (applicationNumber q)
    (publicationNumber q) (registrationNumber q) (internationalRegNumbers q)
    (priorityClaimNumList q) (asignProductMainCodeList q) (viennaCodeList q)
    l (use_fuzzy_search q).

Definition with_name (q : Query) (name : option string) (fuzzy : bool) : Query :=
  mkQuery name (status q) (applicationNumber q)
    (publicationNumber q) (registrationNumber q) (internationalRegNumbers q)
    (priorityClaimNumList q) (asignProductMainCodeList q) (viennaCodeList q)
    (limit q) fuzzy.

(** An empty criterion replaced by an omitted one. *)
Definition omit_empty (arg : option string) : option string :=
  match arg with
  | Some EmptyString => None
  | _ => arg
  end.

Definition omit_empty_criteria (q : Query) : Query :=
  mkQuery (omit_empty (productName q)) (omit_empty (status q))
    (omit_empty (applicationNumber q)) (omit_empty (publicationNumber q))
    (omit_empty (registrationNumber q))
    (omit_empty (internationalRegNumbers q))
    (omit_empty (priorityClaimNumList q))
    (omit_empty (asignProductMainCodeList q)) (omit_empty (viennaCodeList q))
    (limit q) (use_fuzzy_search q).

Definition field_if (arg : option string) (key : string) : list string :=
  match given arg with
  | Some _ => [key]
  | None => []
  end.

(** The record fields the given criteria of a query look at, the name filter
    apart. *)
Definition filtered_fields (q : Query) : list string :=
  (field_if (status q) "registerStatus" ++
   field_if (asignProductMainCodeList q) "asignProductMainCodeList" ++
   field_if (applicationNumber q) "applicationNumber" ++
   field_if (publicationNumber q) "publicationNumber" ++
   field_if (registrationNumber q) "registrationNumber" ++
   field_if (internationalRegNumbers q) "internationalRegNumbers" ++
   field_if (priorityClaimNumList q) "priorityClaimNumList" ++
   field_if (viennaCodeList q) "viennaCodeList")%list.

(** *** Records *)

(** The record has no value for [key]: the key is absent or null. *)
Definition lacks (d : PyDict) (key : string) : Prop :=
  d !! key = None \/ d !! key = Some VNone.

(** A stored name holds [x] as a substring. *)
Definition name_has (x : string) (name : option Value) : Prop :=
  exists s, name = Some (VStr s) /\ exists pre post, s = pre ++ x ++ post.

(** A stored code field holds one of the codes: as an element when it is a
    list, as a substring when it is a non-empty string. *)
Definition has_code (codes : list string) (field : option Value) : Prop :=
  match field with
  | Some (VList l) => exists code, code ∈ codes /\ VStr code ∈ l
  | Some (VStr s) =>
      s <> EmptyString /\
      exists code, code ∈ codes /\ exists pre post, s = pre ++ code ++ post
  | _ => False
  end.

(** *** Ranking *)

(** The score stored on the record behind [i]. *)
Definition stored_score (σ : Store) (i : ref) : Q :=
  match σ !! i with
  | Some d => match score_key d with Ok k => k | Raise _ => 0%Q end
  | None => 0%Q
  end.

(** The record behind [i] carries a number as its score. *)
Definition scored (σ : Store) (i : ref) : Prop :=
  exists d q, σ !! i = Some d /\ d !! "similarity_score" = Some (VNum q).

(** [i] is ranked before [j]: a greater score, or the same score and an
    earlier place in the dataset. *)
Definition ranked_before (σ : Store) (i j : ref) : Prop :=
  (stored_score σ j < stored_score σ i)%Q \/
  (stored_score σ i == stored_score σ j /\ (i < j)%nat)%Q.

(** The same on the pairs of a key and a reference that are sorted. *)
Definition keyed_before (x y : Q * ref) : Prop :=
  (fst y < fst x)%Q \/ (fst x == fst y /\ (snd x < snd y)%nat)%Q.

(** *** The passes in closed form *)

(** A condition of the later passes: it does not look at the score and does
    not raise on a typed record. *)
Definition pass_cond (cond : string -> PyDict -> result bool) : Prop :=
  (forall value d v,
     cond value (<["similarity_score" := v]> d) = cond value d) /\
  (forall value d, record_typed d = true -> is_ok (cond value d) = true).

(** One [if arg:] block lets the record behind [i] through. *)
Definition kept (arg : option string) (cond : string -> PyDict -> result bool)
    (σ : Store) (i : ref) : bool :=
  match given arg with
  | Some value => passes (cond value) σ i
  | None => true
  end.

(** The passes of lines 110-177 on a working list. *)
Definition later_filters (q : Query) (σ : Store) (l : list ref) : list ref :=
  let l := filter (fun i => kept (status q) status_cond σ i) l in
  let l := filter (fun i => kept (asignProductMainCodeList q)
                     (fun arg => code_cond (formatted_codes arg)) σ i) l in
  let l := filter (fun i => kept (applicationNumber q)
                     (field_contains "applicationNumber") σ i) l in
  let l := filter (fun i => kept (publicationNumber q)
                     (field_contains "publicationNumber") σ i) l in
  let l := filter (fun i => kept (registrationNumber q)
                     (field_contains "registrationNumber") σ i) l in
  let l := filter (fun i => kept (internationalRegNumbers q)
                     (field_contains "internationalRegNumbers") σ i) l in
  let l := filter (fun i => kept (priorityClaimNumList q)
                     (field_contains "priorityClaimNumList") σ i) l in
  filter (fun i => kept (viennaCodeList q)
            (field_contains "viennaCodeList") σ i) l.

(** *** Statistics *)

(** The record counts as unclassified: it has no ["registerStatus"] key, or
    the sentinel itself as its status. *)
Definition is_unclassified (d : gmap string Value) : bool :=
  match d !! "registerStatus" with
  | None => true
  | Some v => eq_str v unclassified
  end.

(** The number of records whose status is the key [key]. *)
Definition count_status (data : list (gmap string Value)) (key : Value) : Z :=
  Z.of_nat (length (filter (fun d => key_eqb (status_of d) key) data)).

(** The keys of a dict are pairwise different. *)
Fixpoint distinct_keys (counts : Counts) : Prop :=
  match counts with
  | [] => True
  | (k, _) :: counts' =>
      Forall (fun e => key_eqb k (fst e) = false) counts' /\
      distinct_keys counts'
  end.

(** ** Queries and datasets of the examples *)

Definition only_name (name : string) (fuzzy : bool) : Query :=
  mkQuery (Some name) None None None None None None None None None fuzzy.

Definition only_codes (arg : string) : Query :=
  mkQuery None None None None None None None (Some arg) None None false.

(** A fuzzy name, a status, a registration number and two codes, at most
    five results. *)
Definition busy_query : Query :=
  mkQuery (Some "apple") (Some "등록") None None (Some "40") None None
    (Some "7, x") None (Some 5%Z) true.

Definition apple_dataset : Store :=
  [ {[ "productName" := VStr "apple" ]} ].

Definition apple_inc_dataset : Store :=
  [ <["productName" := VStr "Apple Inc"]>
      {[ "productNameEng" := VStr "ACME" ]} ].

Definition fruit_dataset : Store :=
  [ {[ "productName" := VStr "apples" ]};
    <["productName" := VStr "Apple"]> {[ "productNameEng" := VStr "APPLE" ]};
    <["productName" := VNone]> {[ "productNameEng" := VStr "applet" ]};
    {[ "productName" := VStr "zzz" ]} ].

Definition code_07_dataset : Store :=
  [ {[ "asignProductMainCodeList" := VList [VStr "07"] ]} ].

Definition code_120_dataset : Store :=
  [ {[ "asignProductMainCodeList" := VList [VStr "120"] ]} ].

Definition status_dataset : Store :=
  [ {[ "registerStatus" := VStr "등록" ]};
    {[ "productName" := VStr "apple" ]};
    {[ "registerStatus" := VStr "등록" ]};
    {[ "registerStatus" := VNone ]} ].

(** ** An instance of [fuzz.ratio]

    The library documents [ratio] as the normalized Indel similarity:
    [100 * 2 * lcs / (len a + len b)], and 100 for two empty strings. *)

Fixpoint lcs (a b : string) : nat :=
  match a with
  | EmptyString => 0
  | String x a' =>
      (fix lcs_row (b : string) : nat :=
         match b with
         | EmptyString => 0
         | String y b' =>
             if Ascii.eqb x y then S (lcs a' b')
             else Nat.max (lcs a' b) (lcs_row b')
         end) b
  end.

Definition indel_ratio (a b : string) : Q :=
  match (String.length a + String.length b)%nat with
  | O => 100%Q
  | S n => Qmake (200 * Z.of_nat (lcs a b)) (Pos.of_succ_nat n)
  end.

(** ** The router: [app/routers/searchmarks.py]

    The handler [search_searchmarks] of the router works on the one
    [SearchmarkDatabase] of the module ([db], line 14); its store is the
    store of the engine. *)

(** The dict the handler returns; [data] holds references to the stored
    records. *)
Record Response : Type := mkResponse {
  resp_total : Z;
  resp_total_pages : Z;
  resp_limit : Z;
  resp_data : list ref
}.

Inductive RouterError : Type :=
| ZeroDivisionError
| Propagated (e : PyError).

(** A run of the handler: a response and the store it leaves, or an
    exception. *)
Inductive routed (A : Type) : Type :=
| Responded (a : A) (σ : Store)
| Failed (e : RouterError).

Arguments Responded {A} a σ.
Arguments Failed {A} e.

(** [math.ceil(total / limit)]; [None] stands for the [ZeroDivisionError] of
    the division.  The quotient is a float: the integer it is rounded up to
    is the exact one as long as both numbers are below 2^53 in absolute
    value ([float_exact]), and the statements about pages are made there. *)
Definition ceil_div (total limit : Z) : option Z :=
  if (limit =? 0)%Z then None else Some (- ((- total) / limit))%Z.

Definition float_exact (total limit : Z) : bool :=
  (Z.abs total <? 2 ^ 53)%Z && (Z.abs limit <? 2 ^ 53)%Z.

(** [all(param is None for param in search_params)], lines 47-48. *)
Definition no_criteria (q : Query) : bool :=
  match productName q, status q, applicationNumber q, publicationNumber q,
        registrationNumber q, internationalRegNumbers q,
        priorityClaimNumList q, asignProductMainCodeList q,
        viennaCodeList q with
  | None, None, None, None, None, None, None, None, None => true
  | _, _, _, _, _, _, _, _, _ => false
  end.

(** Lines 49-56 and lines 75-88: the count, the pages, the page. *)
Definition paginate (results : list ref) (limit : Z) (σ : Store)
  : routed Response :=
  let total := Z.of_nat (length results) in
  match ceil_div total limit with
  | None => Failed ZeroDivisionError
  | Some total_pages =>
      Responded (mkResponse total total_pages limit
                   (slice_to results (Some limit))) σ
  end.

(** The handler, lines 18-88: the criteria and the fuzzy flag are those of
    [q], whose own limit it does not pass on (line 69). *)
Definition router_search_searchmarks (fuzz_ratio : string -> string -> Q)
    (q : Query) (limit : Z) (σ : Store) : routed Response :=
  if no_criteria q then paginate (seq 0 (length σ)) limit σ
  else
    match search_searchmarks fuzz_ratio (with_limit q None) σ with
    | Ok (results, σ') => paginate results limit σ'
    | Raise e => Failed (Propagated e)
    end.

(** ** Vocabulary of the further statements *)

(** A criterion that is given holds of its value. *)
Definition when_given (arg : option string) (P : string -> Prop) : Prop :=
  match given arg with
  | Some value => P value
  | None => True
  end.

(** The stored field holds [x]: as a substring when it is a string, as an
    element when it is a list. *)
Definition value_in (x : string) (field : option Value) : Prop :=
  match field with
  | Some (VStr s) => exists pre post, s = pre ++ x ++ post
  | Some (VList l) => VStr x ∈ l
  | _ => False
  end.

(** The name criterion holds of a record, in either mode. *)
Definition name_matches (fuzz_ratio : string -> string -> Q) (fuzzy : bool)
    (query : string) (d : PyDict) : Prop :=
  if fuzzy then (40 <= best_similarity fuzz_ratio query d)%Q
  else name_has (lower query) (d !! "productName") \/
       name_has (lower query) (d !! "productNameEng").

(** Every given criterion of the query holds of the record. *)
Definition matches (fuzz_ratio : string -> string -> Q) (q : Query)
    (d : PyDict) : Prop :=
  when_given (productName q)
    (fun v => name_matches fuzz_ratio (use_fuzzy_search q) v d) /\
  when_given (status q) (fun v => d !! "registerStatus" = Some (VStr v)) /\
  when_given (asignProductMainCodeList q)
    (fun v => has_code (formatted_codes v) (d !! "asignProductMainCodeList")) /\
  when_given (applicationNumber q)
    (fun v => value_in v (d !! "applicationNumber")) /\
  when_given (publicationNumber q)
    (fun v => value_in v (d !! "publicationNumber")) /\
  when_given (registrationNumber q)
    (fun v => value_in v (d !! "registrationNumber")) /\
  when_given (internationalRegNumbers q)
    (fun v => value_in v (d !! "internationalRegNumbers")) /\
  when_given (priorityClaimNumList q)
    (fun v => value_in v (d !! "priorityClaimNumList")) /\
  when_given (viennaCodeList q) (fun v => value_in v (d !! "viennaCodeList")).

(** The sum of the counts of a dict. *)
Definition counted (counts : Counts) : Z :=
  foldr (fun e acc => (snd e + acc)%Z) 0%Z counts.

(** The query without any criterion. *)
Definition no_filter (lim : option Z) (fuzzy : bool) : Query :=
  mkQuery None None None None None None None None None lim fuzzy.

Definition only_status (value : string) : Query :=
  mkQuery None (Some value) None None None None None None None None false.

(** Records of any shape: a number as a name, a dict as a code list. *)
Definition untyped_dataset : Store :=
  [ <["productName" := VNum 7]> {[ "registerStatus" := VStr "등록" ]};
    <["asignProductMainCodeList" := VNum 7]>
      {[ "registerStatus" := VStr "등록 " ]};
    {[ "registerStatus" := VList [VStr "등록"] ]} ].

(** Two fruit records are registered, one under a registration number. *)
Definition registered_dataset : Store :=
  [ <["registerStatus" := VStr "등록"]> {[ "productName" := VStr "apples" ]};
    <["registerStatus" := VStr "거절"]> {[ "productName" := VStr "apple" ]};
    <["registerStatus" := VStr "등록"]>
      (<["registrationNumber" := VList [VStr "4000001"; VStr "4000002"]]>
         {[ "productNameEng" := VStr "APPLET" ]}) ].

(** Every status is a string, or the record has no ["registerStatus"] key:
    no null, no number. *)
Definition statuses_strings (data : Store) : bool :=
  forallb (fun d => match d !! "registerStatus" with
                    | None | Some (VStr _) => true
                    | Some _ => false
                    end) data.

(** One record whose status is a stored null. *)
Definition null_status_dataset : Store :=
  [ {[ "registerStatus" := VNone ]} ].

(** A repeated status, a record without status and a status of its own. *)
Definition string_status_dataset : Store :=
  [ {[ "registerStatus" := VStr "등록" ]};
    {[ "productName" := VStr "apple" ]};
    {[ "registerStatus" := VStr "등록" ]};
    {[ "registerStatus" := VStr "거절" ]} ].

(** ** Basic facts *)

Lemma bindM_ok {A B} (m : M A) (f : A -> M B) σ a σ1 :
  m σ = Ok (a, σ1) -> bindM m f σ = f a σ1.
Proof. unfold bindM. intros ->. reflexivity. Qed.

Lemma bindM_inv {A B} (m : M A) (f : A -> M B) σ b σ2 :
  bindM m f σ = Ok (b, σ2) ->
  exists a σ1, m σ = Ok (a, σ1) /\ f a σ1 = Ok (b, σ2).
Proof.
  unfold bindM. destruct (m σ) as [[a σ1]|e]; [|discriminate].
  intros H. exists a, σ1. split; [reflexivity|exact H].
Qed.

Lemma passes_true cond σ i :
  passes cond σ i = true <-> exists d, σ !! i = Some d /\ cond d = Ok true.
Proof.
  unfold passes. split.
  - destruct (σ !! i) as [d|]; [|discriminate].
    destruct (cond d) as [b|e] eqn:E; [|discriminate].
    intros ->. exists d. split; [reflexivity|exact E].
  - intros (d & -> & ->). reflexivity.
Qed.

(** A comprehension leaves the store alone and keeps, in order, the
    references that satisfy the condition. *)
Lemma comprehension_inv cond l σ l' σ' :
  comprehension cond l σ = Ok (l', σ') ->
  σ' = σ /\ l' = filter (fun i => passes cond σ i) l.
Proof.
  revert l' σ'. induction l as [|i l IH]; intros l' σ' H.
  - cbn in H. injection H as <- <-. split; reflexivity.
  - cbn [comprehension] in H.
    apply bindM_inv in H as (d & σ1 & Hd & H).
    unfold deref in Hd. destruct (σ !! i) as [d0|] eqn:Ei; [|discriminate].
    injection Hd as <- <-.
    apply bindM_inv in H as (b & σ1 & Hb & H).
    unfold lift in Hb. destruct (cond d0) as [b0|] eqn:Ec; [|discriminate].
    injection Hb as <- <-.
    apply bindM_inv in H as (r & σ1 & Hr & H).
    apply IH in Hr as [-> ->].
    unfold retM in H. injection H as <- <-. split; [reflexivity|].
    assert (Hp : passes cond σ i = b0) by (unfold passes; rewrite Ei, Ec; reflexivity).
    rewrite filter_cons, Hp.
    destruct b0; cbn; destruct (decide _) as [Hy|Hn]; try reflexivity;
      first [exfalso; exact (Hn I) | destruct Hy].
Qed.

Lemma comprehension_ok cond l σ :
  (forall i, i ∈ l -> exists d, σ !! i = Some d /\ is_ok (cond d) = true) ->
  comprehension cond l σ = Ok (filter (fun i => passes cond σ i) l, σ).
Proof.
  induction l as [|i l IH]; intros H.
  - reflexivity.
  - destruct (H i) as (d & Ei & Hc); [left|].
    destruct (cond d) as [b|] eqn:Ec; [|discriminate].
    cbn [comprehension].
    rewrite (bindM_ok _ _ σ d σ) by (unfold deref; rewrite Ei; reflexivity).
    rewrite (bindM_ok _ _ σ b σ) by (unfold lift; rewrite Ec; reflexivity).
    rewrite (bindM_ok _ _ σ _ σ (IH (fun j Hj => H j (list_elem_of_further _ _ _ Hj)))).
    assert (Hp : passes cond σ i = b) by (unfold passes; rewrite Ei, Ec; reflexivity).
    unfold retM. rewrite filter_cons, Hp.
    destruct b; cbn; destruct (decide _) as [Hy|Hn]; try reflexivity;
      first [exfalso; exact (Hn I) | destruct Hy].
Qed.

Lemma StronglySorted_sublist {A} (R : relation A) (l1 l2 : list A) :
  l1 `sublist_of` l2 -> StronglySorted R l2 -> StronglySorted R l1.
Proof.
  induction 1 as [|x l1 l2 Hsub IH|x l1 l2 Hsub IH]; intros Hs.
  - constructor.
  - apply StronglySorted_inv in Hs as [Hs Hall]. constructor; [auto|].
    rewrite Forall_forall in *. intros y Hy. apply Hall.
    eapply elem_of_sublist; eassumption.
  - apply StronglySorted_inv in Hs as [Hs _]. auto.
Qed.

(** *** Reading a record *)

Lemma dict_get_score_ne d key v :
  key <> "similarity_score" ->
  dict_get (<["similarity_score" := v]> d) key = dict_get d key.
Proof. intros H. unfold dict_get. rewrite lookup_insert_ne by congruence. reflexivity. Qed.

Lemma dict_item_score_ne d key v :
  key <> "similarity_score" ->
  dict_item (<["similarity_score" := v]> d) key = dict_item d key.
Proof. intros H. unfold dict_item. rewrite lookup_insert_ne by congruence. reflexivity. Qed.

Lemma field_contains_score_ne key value d v :
  key <> "similarity_score" ->
  field_contains key value (<["similarity_score" := v]> d) =
  field_contains key value d.
Proof.
  intros H. unfold field_contains.
  rewrite dict_get_score_ne, dict_item_score_ne by exact H. reflexivity.
Qed.

Lemma name_cond_score_ne value d v :
  name_cond value (<["similarity_score" := v]> d) = name_cond value d.
Proof.
  unfold name_cond. rewrite !field_contains_score_ne by discriminate. reflexivity.
Qed.

Lemma status_cond_score_ne value d v :
  status_cond value (<["similarity_score" := v]> d) = status_cond value d.
Proof.
  unfold status_cond. rewrite dict_get_score_ne by discriminate. reflexivity.
Qed.

Lemma code_cond_score_ne codes d v :
  code_cond codes (<["similarity_score" := v]> d) = code_cond codes d.
Proof.
  unfold code_cond.
  rewrite dict_get_score_ne, dict_item_score_ne by discriminate. reflexivity.
Qed.

(** *** Conditions on typed records do not raise *)

Lemma py_in_ok x v :
  is_text_or_list (Some v) = true -> truthy v = true -> is_ok (py_in x v) = true.
Proof. destruct v; cbn; intros; congruence. Qed.

Lemma any_in_ok codes v :
  is_text_or_list (Some v) = true -> truthy v = true ->
  is_ok (any_in codes v) = true.
Proof.
  intros Ht Hv. induction codes as [|c codes IH]; [reflexivity|].
  cbn. destruct v; try discriminate; cbn in *.
  - destruct (str_contains c s); [reflexivity|exact IH].
  - destruct (existsb _ l); [reflexivity|exact IH].
Qed.

Lemma field_contains_ok key value d :
  is_text_or_list (d !! key) = true -> is_ok (field_contains key value d) = true.
Proof.
  unfold field_contains, dict_get, dict_item.
  destruct (d !! key) as [v|]; [|reflexivity].
  intros H. destruct (truthy v) eqn:Hv; [|reflexivity].
  cbn. apply py_in_ok; assumption.
Qed.

Lemma is_name_text o : is_name o = true -> is_text_or_list o = true.
Proof. destruct o as [[]|]; cbn; congruence. Qed.

Lemma name_cond_ok value d :
  is_name (d !! "productName") = true ->
  is_name (d !! "productNameEng") = true ->
  is_ok (name_cond value d) = true.
Proof.
  intros H1 H2. unfold name_cond.
  pose proof (field_contains_ok "productName" value d (is_name_text _ H1)) as Hk.
  destruct (field_contains "productName" value d) as [b|]; [|discriminate].
  cbn. destruct b; [reflexivity|].
  apply field_contains_ok, is_name_text, H2.
Qed.

Lemma code_cond_ok codes d :
  is_text_or_list (d !! "asignProductMainCodeList") = true ->
  is_ok (code_cond codes d) = true.
Proof.
  unfold code_cond, dict_get, dict_item.
  destruct (d !! "asignProductMainCodeList") as [v|]; [|reflexivity].
  intros H. destruct (truthy v) eqn:Hv; [|reflexivity].
  cbn. apply any_in_ok; assumption.
Qed.

Lemma record_typed_name d :
  record_typed d = true ->
  is_name (d !! "productName") = true /\ is_name (d !! "productNameEng") = true.
Proof.
  unfold record_typed. rewrite !andb_true_iff. tauto.
Qed.

Lemma record_typed_field d key :
  record_typed d = true -> key ∈ searched_fields ->
  is_text_or_list (d !! key) = true.
Proof.
  unfold record_typed. rewrite !andb_true_iff. intros [_ H] Hk.
  rewrite forallb_forall in H. apply H. apply list_elem_of_In. exact Hk.
Qed.

Lemma dataset_typed_lookup (σ : Store) i d :
  dataset_typed σ = true -> σ !! i = Some d -> record_typed d = true.
Proof.
  unfold dataset_typed. rewrite forallb_forall. intros H Hi.
  apply H. apply list_elem_of_In. eapply list_elem_of_lookup_2. exact Hi.
Qed.

Lemma py_max_Qmax a b : py_max a b = Qmax a b.
Proof. reflexivity. Qed.

(** *** The stable sort *)

Lemma insert_desc_perm {A} (x : Q * A) l : insert_desc x l ≡ₚ x :: l.
Proof.
  induction l as [|y l IH]; [reflexivity|].
  cbn. destruct (Qle_bool (fst y) (fst x)); [reflexivity|].
  rewrite IH. apply Permutation_swap.
Qed.

Lemma sort_desc_perm {A} (l : list (Q * A)) : sort_desc l ≡ₚ l.
Proof.
  induction l as [|x l IH]; [reflexivity|].
  cbn. etransitivity; [apply insert_desc_perm|].
  apply Permutation_cons; [reflexivity|exact IH].
Qed.

Lemma keyed_before_le (x z : Q * ref) :
  (fst z <= fst x)%Q -> (snd x < snd z)%nat -> keyed_before x z.
Proof.
  intros Hle Hlt. destruct (Qle_lt_or_eq _ _ Hle) as [H|H].
  - left. exact H.
  - right. split; [symmetry; exact H|exact Hlt].
Qed.

Lemma keyed_before_key_le (y z : Q * ref) :
  keyed_before y z -> (fst z <= fst y)%Q.
Proof.
  intros [H|[H _]].
  - apply Qlt_le_weak, H.
  - rewrite H. apply Qle_refl.
Qed.

Lemma insert_desc_sorted (x : Q * ref) l :
  StronglySorted keyed_before l ->
  (forall y, y ∈ l -> (snd x < snd y)%nat) ->
  StronglySorted keyed_before (insert_desc x l).
Proof.
  induction l as [|y l IH]; intros Hs Hx.
  - cbn. repeat constructor.
  - cbn. apply StronglySorted_inv in Hs as Hinv. destruct Hinv as [Hl Hy].
    rewrite Forall_forall in Hy.
    destruct (Qle_bool (fst y) (fst x)) eqn:E.
    + apply Qle_bool_iff in E. constructor; [exact Hs|].
      rewrite Forall_forall. intros z Hz.
      apply keyed_before_le; [|apply Hx; exact Hz].
      apply elem_of_cons in Hz as [->|Hz]; [exact E|].
      eapply Qle_trans; [|exact E]. apply keyed_before_key_le, Hy, Hz.
    + assert (Hlt : (fst x < fst y)%Q).
      { apply Qnot_le_lt. intros Hle. apply Qle_bool_iff in Hle. congruence. }
      constructor.
      * apply IH; [exact Hl|]. intros z Hz. apply Hx. right. exact Hz.
      * rewrite Forall_forall. intros z Hz.
        rewrite insert_desc_perm in Hz.
        apply elem_of_cons in Hz as [->|Hz]; [left; exact Hlt|apply Hy, Hz].
Qed.

Lemma sort_desc_sorted (l : list (Q * ref)) :
  StronglySorted (fun x y => (snd x < snd y)%nat) l ->
  StronglySorted keyed_before (sort_desc l).
Proof.
  induction l as [|x l IH]; intros Hs.
  - constructor.
  - apply StronglySorted_inv in Hs as [Hl Hx].
    rewrite Forall_forall in Hx.
    change (sort_desc (x :: l)) with (insert_desc x (sort_desc l)).
    apply insert_desc_sorted; [apply IH, Hl|].
    intros y Hy. apply Hx. rewrite sort_desc_perm in Hy. exact Hy.
Qed.

Lemma seq_increasing j n : StronglySorted lt (seq j n).
Proof.
  revert j. induction n as [|n IH]; intros j; cbn; constructor; [apply IH|].
  rewrite Forall_forall. intros k Hk. apply elem_of_seq in Hk. lia.
Qed.

(** ** The fuzzy ranker *)

Section Ranker.

Variable fuzz_ratio : string -> string -> Q.

Abbreviation best := (best_similarity fuzz_ratio).
Abbreviation marked := (mark fuzz_ratio).
Abbreviation is_hit := (hit fuzz_ratio).

(** Lines 84-91 compute the similarity of the specification on a name that
    is absent, null or a string. *)
Lemma name_score_spec query key d :
  is_name (d !! key) = true ->
  name_score fuzz_ratio (lower query) key d =
  Ok (field_similarity fuzz_ratio query (d !! key)).
Proof.
  unfold name_score, dict_get, dict_item, field_similarity.
  destruct (d !! key) as [[]|]; cbn; try discriminate; try reflexivity.
  intros _. destruct (str_truthy s); reflexivity.
Qed.

Lemma best_similarity_score_ne query d v :
  best query (<["similarity_score" := v]> d) = best query d.
Proof.
  unfold best_similarity. rewrite !lookup_insert_ne by discriminate. reflexivity.
Qed.

Lemma score_key_mark query d : score_key (marked query d) = Ok (best query d).
Proof.
  unfold score_key, mark, dict_item. rewrite lookup_insert_eq. reflexivity.
Qed.

Lemma mark_mark query d : marked query (marked query d) = marked query d.
Proof.
  unfold mark. rewrite best_similarity_score_ne. apply insert_insert_eq.
Qed.

Lemma lookup_mark_ne query d key :
  key <> "similarity_score" -> marked query d !! key = d !! key.
Proof. intros H. unfold mark. apply lookup_insert_ne. congruence. Qed.

Lemma hit_insert_mark query (σ : Store) i d j :
  σ !! i = Some d ->
  is_hit query (<[i := marked query d]> σ) j = is_hit query σ j.
Proof.
  intros Ei. unfold hit. destruct (decide (i = j)) as [<-|Hne].
  - rewrite list_lookup_insert_eq by (eapply lookup_lt_Some; exact Ei).
    rewrite Ei. unfold mark. rewrite best_similarity_score_ne. reflexivity.
  - rewrite list_lookup_insert_ne by exact Hne. reflexivity.
Qed.

(** One turn of the loop of lines 83-97. *)
Lemma fuzzy_loop_step query (σ : Store) i d rest acc :
  σ !! i = Some d ->
  is_name (d !! "productName") = true ->
  is_name (d !! "productNameEng") = true ->
  fuzzy_loop fuzz_ratio (lower query) (i :: rest) acc σ =
  if Qle_bool 40 (best query d)
  then fuzzy_loop fuzz_ratio (lower query) rest (acc ++ [i])
         (<[i := marked query d]> σ)
  else fuzzy_loop fuzz_ratio (lower query) rest acc σ.
Proof.
  intros Ei H1 H2. cbn [fuzzy_loop].
  rewrite (bindM_ok _ _ σ d σ) by (unfold deref; rewrite Ei; reflexivity).
  rewrite (bindM_ok _ _ σ _ σ)
    by (unfold lift; rewrite (name_score_spec query _ d H1); reflexivity).
  rewrite (bindM_ok _ _ σ _ σ)
    by (unfold lift; rewrite (name_score_spec query _ d H2); reflexivity).
  cbv zeta. rewrite py_max_Qmax. fold (best query d).
  destruct (Qle_bool 40 (best query d)).
  - unfold bindM at 1. unfold bindM at 1. unfold setitem. rewrite Ei.
    reflexivity.
  - reflexivity.
Qed.

(** The loop keeps, in order, the references that reach the threshold, and
    writes the score on exactly those records. *)
Lemma fuzzy_loop_spec query l : forall acc (σ : Store),
  (forall i, i ∈ l -> exists d, σ !! i = Some d /\
     is_name (d !! "productName") = true /\
     is_name (d !! "productNameEng") = true) ->
  exists σ' : Store,
    fuzzy_loop fuzz_ratio (lower query) l acc σ =
      Ok ((acc ++ filter (fun i => is_hit query σ i) l)%list, σ') /\
    length σ' = length σ /\
    forall j, σ' !! j =
      if is_hit query σ j && bool_decide (j ∈ l)
      then marked query <$> σ !! j else σ !! j.
Proof.
  induction l as [|i l IH]; intros acc σ Hl.
  - exists σ. cbn. rewrite app_nil_r. split; [reflexivity|].
    split; [reflexivity|]. intros j. rewrite andb_false_r. reflexivity.
  - destruct (Hl i) as (d & Ei & H1 & H2); [left|].
    rewrite (fuzzy_loop_step query σ i d l acc Ei H1 H2).
    rewrite filter_cons.
    assert (Hh : is_hit query σ i = Qle_bool 40 (best query d))
      by (unfold hit; rewrite Ei; reflexivity).
    destruct (Qle_bool 40 (best query d)) eqn:E.
    + destruct (IH (acc ++ [i])%list (<[i := marked query d]> σ))
        as (σ' & Hrun & Hlen & Hst).
      { intros j Hj. destruct (decide (i = j)) as [<-|Hne].
        - exists (marked query d). split.
          + apply list_lookup_insert_eq. eapply lookup_lt_Some; exact Ei.
          + rewrite !lookup_mark_ne by discriminate. split; assumption.
        - rewrite list_lookup_insert_ne by exact Hne.
          apply Hl. right. exact Hj. }
      exists σ'. split; [|split].
      * rewrite Hrun. rewrite Hh. cbn.
        destruct (decide _) as [_|Hn]; [|exfalso; exact (Hn I)].
        rewrite <- app_assoc. cbn. do 4 f_equal.
        apply list_filter_iff. intros j.
        rewrite (hit_insert_mark query σ i d j Ei). reflexivity.
      * rewrite Hlen. apply length_insert.
      * intros j. rewrite Hst, (hit_insert_mark query σ i d j Ei).
        destruct (decide (i = j)) as [<-|Hne].
        -- rewrite list_lookup_insert_eq by (eapply lookup_lt_Some; exact Ei).
           rewrite Hh, Ei. cbn.
           rewrite (bool_decide_eq_true_2 (i ∈ i :: l)) by left.
           rewrite mark_mark. destruct (bool_decide (i ∈ l)); reflexivity.
        -- rewrite list_lookup_insert_ne by exact Hne.
           assert (Hb : bool_decide (j ∈ i :: l) = bool_decide (j ∈ l)).
           { apply bool_decide_ext. rewrite elem_of_cons. intuition congruence. }
           rewrite Hb. reflexivity.
    + destruct (IH acc σ) as (σ' & Hrun & Hlen & Hst).
      { intros j Hj. apply Hl. right. exact Hj. }
      exists σ'. split; [|split].
      * rewrite Hrun, Hh. cbn.
        destruct (decide _) as [Hy|_]; [destruct Hy|]. reflexivity.
      * exact Hlen.
      * intros j. rewrite Hst. destruct (decide (i = j)) as [<-|Hne].
        -- rewrite Hh. reflexivity.
        -- assert (Hb : bool_decide (j ∈ i :: l) = bool_decide (j ∈ l)).
           { apply bool_decide_ext. rewrite elem_of_cons. intuition congruence. }
           rewrite Hb. reflexivity.
Qed.

End Ranker.

Lemma StronglySorted_fmap_rel {A B} (R : relation A) (R' : relation B)
    (f : A -> B) (l : list A) :
  (forall x y, x ∈ l -> y ∈ l -> R x y -> R' (f x) (f y)) ->
  StronglySorted R l -> StronglySorted R' (f <$> l).
Proof.
  induction l as [|x l IH]; intros Hf Hs; cbn; [constructor|].
  apply StronglySorted_inv in Hs as [Hl Hx]. constructor.
  - apply IH; [|exact Hl]. intros a b Ha Hb. apply Hf; right; assumption.
  - rewrite Forall_forall in Hx. apply Forall_forall. intros y Hy.
    apply list_elem_of_fmap in Hy as (z & -> & Hz).
    apply Hf; [left|right; exact Hz|apply Hx, Hz].
Qed.

Lemma filter_true {A} (l : list A) : filter (fun _ => Is_true true) l = l.
Proof.
  induction l as [|x l IH]; [reflexivity|].
  rewrite filter_cons.
  destruct (decide _) as [_|Hn]; [f_equal; exact IH|exfalso; exact (Hn I)].
Qed.

Lemma with_keys_ok l (σ : Store) :
  (forall i, i ∈ l -> exists d, σ !! i = Some d /\ is_ok (score_key d) = true) ->
  with_keys l σ = Ok ((fun i => (stored_score σ i, i)) <$> l, σ).
Proof.
  induction l as [|i l IH]; intros H; [reflexivity|].
  destruct (H i) as (d & Ei & Hk); [left|].
  destruct (score_key d) as [k|] eqn:Ek; [|discriminate].
  cbn [with_keys].
  rewrite (bindM_ok _ _ σ d σ) by (unfold deref; rewrite Ei; reflexivity).
  rewrite (bindM_ok _ _ σ k σ) by (unfold lift; rewrite Ek; reflexivity).
  rewrite (bindM_ok _ _ σ _ σ (IH (fun j Hj => H j (list_elem_of_further _ _ _ Hj)))).
  assert (Hs : stored_score σ i = k)
    by (unfold stored_score; rewrite Ei, Ek; reflexivity).
  unfold retM. rewrite fmap_cons, Hs. reflexivity.
Qed.

(** ** The passes of [search_searchmarks] *)

Lemma pass_cond_status : pass_cond status_cond.
Proof.
  split; [intros; apply status_cond_score_ne|reflexivity].
Qed.

Lemma pass_cond_code :
  pass_cond (fun arg => code_cond (formatted_codes arg)).
Proof.
  split; [intros; apply code_cond_score_ne|].
  intros value d Hd. apply code_cond_ok.
  apply (record_typed_field d _ Hd). unfold searched_fields. left.
Qed.

Lemma pass_cond_field key :
  key ∈ searched_fields -> pass_cond (field_contains key).
Proof.
  intros Hk. split.
  - intros value d v. apply field_contains_score_ne.
    intros ->. unfold searched_fields in Hk.
    rewrite !elem_of_cons, elem_of_nil in Hk. intuition discriminate.
  - intros value d Hd. apply field_contains_ok.
    apply (record_typed_field d _ Hd Hk).
Qed.

Section Pipeline.

Variable fuzz_ratio : string -> string -> Q.

Abbreviation best := (best_similarity fuzz_ratio).
Abbreviation after := (final_store fuzz_ratio).

Lemma final_store_lookup q (σ : Store) :
  exists f, (forall d, f d = d \/ exists v, f d = <["similarity_score" := v]> d) /\
            forall j, after q σ !! j = f <$> σ !! j.
Proof.
  unfold final_store.
  destruct (given (productName q)) as [query|];
    [destruct (use_fuzzy_search q)|].
  - exists (rescore fuzz_ratio query). split.
    + intros d. unfold rescore, mark. destruct (Qle_bool _ _); eauto.
    + intros j. apply list_lookup_fmap.
  - exists (fun d => d). split; [eauto|]. intros j. destruct (σ !! j); reflexivity.
  - exists (fun d => d). split; [eauto|]. intros j. destruct (σ !! j); reflexivity.
Qed.

Lemma final_store_length q (σ : Store) : length (after q σ) = length σ.
Proof.
  unfold final_store.
  destruct (given (productName q)); [destruct (use_fuzzy_search q)|];
    rewrite ?length_fmap; reflexivity.
Qed.

Lemma passes_final_store cond q (σ : Store) i :
  (forall d v, cond (<["similarity_score" := v]> d) = cond d) ->
  passes cond (after q σ) i = passes cond σ i.
Proof.
  intros H. destruct (final_store_lookup q σ) as (f & Hf & Hl).
  unfold passes. rewrite Hl. destruct (σ !! i) as [d|]; [|reflexivity].
  cbn. destruct (Hf d) as [->|[v ->]]; [reflexivity|]. rewrite H. reflexivity.
Qed.

Lemma kept_final_store arg cond q (σ : Store) i :
  pass_cond cond -> kept arg cond (after q σ) i = kept arg cond σ i.
Proof.
  intros [H _]. unfold kept. destruct (given arg); [|reflexivity].
  apply passes_final_store. intros d v. apply H.
Qed.

(** One [if arg:] block on the store a query works on. *)
Lemma filter_if_spec arg cond q (σ : Store) l :
  pass_cond cond -> dataset_typed σ = true ->
  (forall i, i ∈ l -> (i < length σ)%nat) ->
  filter_if arg cond l (after q σ) =
  Ok (filter (fun i => kept arg cond σ i) l, after q σ).
Proof.
  intros Hc Hσ Hl. unfold filter_if.
  destruct (given arg) as [value|] eqn:Eg.
  - rewrite comprehension_ok.
    + f_equal. f_equal. apply list_filter_iff. intros i.
      unfold kept. rewrite Eg. rewrite passes_final_store; [reflexivity|].
      intros d v. apply Hc.
    + intros i Hi. destruct (final_store_lookup q σ) as (f & Hf & Hlk).
      destruct (lookup_lt_is_Some_2 σ i (Hl i Hi)) as [d Ed].
      exists (f d). rewrite Hlk, Ed. split; [reflexivity|].
      pose proof (dataset_typed_lookup σ i d Hσ Ed) as Hd.
      destruct Hc as [Hc1 Hc2].
      destruct (Hf d) as [->|[v ->]]; [|rewrite Hc1]; apply Hc2, Hd.
  - unfold retM. f_equal. f_equal. symmetry.
    rewrite <- (filter_true l) at 2. apply list_filter_iff. intros i.
    unfold kept. rewrite Eg. reflexivity.
Qed.

Lemma seq_valid (σ : Store) i : i ∈ seq 0 (length σ) <-> is_Some (σ !! i).
Proof. rewrite elem_of_seq, lookup_lt_is_Some. lia. Qed.

Lemma fuzzy_loop_dataset query (σ : Store) :
  dataset_typed σ = true ->
  fuzzy_loop fuzz_ratio (lower query) (seq 0 (length σ)) [] σ =
  Ok (filter (fun i => hit fuzz_ratio query σ i) (seq 0 (length σ)),
      rescore fuzz_ratio query <$> σ).
Proof.
  intros Hσ.
  destruct (fuzzy_loop_spec fuzz_ratio query (seq 0 (length σ)) [] σ)
    as (σ' & Hrun & Hlen & Hst).
  { intros i Hi. apply seq_valid in Hi as [d Ed]. exists d.
    split; [exact Ed|]. apply record_typed_name.
    eapply dataset_typed_lookup; eassumption. }
  rewrite Hrun. cbn [app]. do 2 f_equal.
  apply list_eq. intros j. rewrite Hst, list_lookup_fmap.
  unfold hit. destruct (σ !! j) as [d|] eqn:Ej.
  - rewrite (bool_decide_eq_true_2 (j ∈ seq 0 (length σ)))
      by (apply seq_valid; rewrite Ej; eauto).
    rewrite andb_true_r. cbn. unfold rescore.
    destruct (Qle_bool 40 (best query d)); reflexivity.
  - reflexivity.
Qed.

Lemma sorted_by_score_spec query (σ : Store) l :
  (forall i, i ∈ l -> hit fuzz_ratio query σ i = true) ->
  StronglySorted lt l ->
  let σ' := rescore fuzz_ratio query <$> σ in
  exists ns, sorted_by_score l σ' = Ok (ns, σ') /\ ns ≡ₚ l /\
             StronglySorted (ranked_before σ') ns.
Proof.
  intros Hl Hs σ'.
  set (keyed := (fun i => (stored_score σ' i, i)) <$> l).
  exists (snd <$> sort_desc keyed).
  assert (Hsnd : snd <$> keyed = l).
  { unfold keyed. rewrite <- list_fmap_compose.
    rewrite <- (list_fmap_id l) at 2. apply list_fmap_ext. reflexivity. }
  split; [|split].
  - unfold sorted_by_score. rewrite (bindM_ok _ _ σ' keyed σ'); [reflexivity|].
    apply with_keys_ok. intros i Hi. specialize (Hl i Hi).
    unfold hit in Hl. unfold σ'. rewrite list_lookup_fmap.
    destruct (σ !! i) as [d|]; [|discriminate]. cbn.
    exists (rescore fuzz_ratio query d). split; [reflexivity|].
    unfold rescore. rewrite Hl. rewrite score_key_mark. reflexivity.
  - etransitivity; [apply fmap_Permutation, sort_desc_perm|].
    rewrite Hsnd. reflexivity.
  - apply (StronglySorted_fmap_rel keyed_before).
    + intros x y Hx Hy Hxy.
      assert (Hk : forall z, z ∈ sort_desc keyed ->
                             fst z = stored_score σ' (snd z)).
      { intros z Hz. rewrite sort_desc_perm in Hz. unfold keyed in Hz.
        apply list_elem_of_fmap in Hz as (k & -> & _). reflexivity. }
      unfold ranked_before. rewrite <- !(Hk _ Hx), <- !(Hk _ Hy). exact Hxy.
    + apply sort_desc_sorted. unfold keyed.
      apply (StronglySorted_fmap_rel lt); [|exact Hs].
      intros x y _ _ Hxy. exact Hxy.
Qed.

(** The name filter on the whole dataset. *)
Lemma name_filter_spec q (σ : Store) :
  dataset_typed σ = true ->
  exists ns,
    name_filter fuzz_ratio q (seq 0 (length σ)) σ = Ok (ns, after q σ) /\
    ns ≡ₚ filter (fun i => name_kept fuzz_ratio q σ i) (seq 0 (length σ)) /\
    (given (productName q) = None \/ use_fuzzy_search q = false ->
     ns = filter (fun i => name_kept fuzz_ratio q σ i) (seq 0 (length σ))) /\
    (is_Some (given (productName q)) -> use_fuzzy_search q = true ->
     StronglySorted (ranked_before (after q σ)) ns).
Proof.
  intros Hσ. unfold name_filter, final_store.
  destruct (given (productName q)) as [query|] eqn:Eg;
    [destruct (use_fuzzy_search q) eqn:Ef|].
  - rewrite (bindM_ok _ _ _ _ _ (fuzzy_loop_dataset query σ Hσ)).
    destruct (sorted_by_score_spec query σ
                (filter (fun i => hit fuzz_ratio query σ i) (seq 0 (length σ))))
      as (ns & Hrun & Hperm & Hsort).
    { intros i Hi. apply list_elem_of_filter in Hi as [Hi _].
      apply Is_true_true_1, Hi. }
    { eapply StronglySorted_sublist; [apply sublist_filter|apply seq_increasing]. }
    exists ns. split; [exact Hrun|]. split; [|split].
    + rewrite Hperm. erewrite list_filter_iff; [reflexivity|].
      intros i. unfold name_kept. rewrite Eg, Ef. reflexivity.
    + intros [H|H]; discriminate.
    + intros _ _. exact Hsort.
  - eexists. split; [|split; [|split]].
    + apply comprehension_ok. intros i Hi. apply seq_valid in Hi as [d Ed].
      exists d. split; [exact Ed|].
      pose proof (dataset_typed_lookup σ i d Hσ Ed) as Hd.
      apply record_typed_name in Hd as [H1 H2]. apply name_cond_ok; assumption.
    + erewrite list_filter_iff; [reflexivity|].
      intros i. unfold name_kept. rewrite Eg, Ef. reflexivity.
    + intros _. apply list_filter_iff.
      intros i. unfold name_kept. rewrite Eg, Ef. reflexivity.
    + discriminate.
  - exists (seq 0 (length σ)).
    assert (Hall : seq 0 (length σ) =
                   filter (fun i => name_kept fuzz_ratio q σ i) (seq 0 (length σ))).
    { rewrite <- (filter_true (seq 0 (length σ))) at 1.
      apply list_filter_iff. intros i. unfold name_kept. rewrite Eg. reflexivity. }
    split; [reflexivity|]. split; [rewrite <- Hall; reflexivity|].
    split; [intros _; exact Hall|]. intros [x Hx]. discriminate.
Qed.

Lemma filter_valid (σ : Store) (P : ref -> Prop) `{!forall i, Decision (P i)}
    (l : list ref) :
  (forall i, i ∈ l -> (i < length σ)%nat) ->
  forall i, i ∈ filter P l -> (i < length σ)%nat.
Proof. intros Hl i Hi. apply list_elem_of_filter in Hi as [_ Hi]. apply Hl, Hi. Qed.

(** Lines 74-177 on a typed dataset: the passes return, and what they
    return. *)
Lemma filter_passes_spec q (σ : Store) :
  dataset_typed σ = true ->
  exists ns,
    filter_passes fuzz_ratio q σ = Ok (later_filters q σ ns, after q σ) /\
    ns ≡ₚ filter (fun i => name_kept fuzz_ratio q σ i) (seq 0 (length σ)) /\
    (given (productName q) = None \/ use_fuzzy_search q = false ->
     ns = filter (fun i => name_kept fuzz_ratio q σ i) (seq 0 (length σ))) /\
    (is_Some (given (productName q)) -> use_fuzzy_search q = true ->
     StronglySorted (ranked_before (after q σ)) ns).
Proof.
  intros Hσ. destruct (name_filter_spec q σ Hσ) as (ns & Hrun & Hperm & Hrest).
  exists ns. split; [|split; [exact Hperm|exact Hrest]].
  assert (Hns : forall i, i ∈ ns -> (i < length σ)%nat).
  { intros i Hi. rewrite Hperm in Hi. apply list_elem_of_filter in Hi as [_ Hi].
    apply elem_of_seq in Hi. lia. }
  unfold filter_passes, later_filters.
  rewrite (bindM_ok data_copy _ σ (seq 0 (length σ)) σ eq_refl).
  rewrite (bindM_ok _ _ _ _ _ Hrun).
  pose proof pass_cond_status as C1.
  pose proof pass_cond_code as C2.
  assert (C3 : forall key, key ∈ searched_fields -> pass_cond (field_contains key))
    by exact pass_cond_field.
  repeat match goal with
  | |- bindM (filter_if ?arg ?cond ?l) _ _ = _ =>
      rewrite (bindM_ok (filter_if arg cond l) _ _ _ _
                 (filter_if_spec arg cond q σ l
                    ltac:(first [exact C1 | exact C2
                                | apply C3; unfold searched_fields;
                                  rewrite !elem_of_cons; tauto])
                    Hσ ltac:(repeat apply filter_valid; exact Hns)))
  end.
  reflexivity.
Qed.

(** [search_searchmarks] on a typed dataset. *)
Lemma search_searchmarks_spec q (σ : Store) :
  dataset_typed σ = true ->
  exists ns,
    search_searchmarks fuzz_ratio q σ =
      Ok (slice_to (later_filters q σ ns) (limit q), after q σ) /\
    ns ≡ₚ filter (fun i => name_kept fuzz_ratio q σ i) (seq 0 (length σ)) /\
    (given (productName q) = None \/ use_fuzzy_search q = false ->
     ns = filter (fun i => name_kept fuzz_ratio q σ i) (seq 0 (length σ))) /\
    (is_Some (given (productName q)) -> use_fuzzy_search q = true ->
     StronglySorted (ranked_before (after q σ)) ns).
Proof.
  intros Hσ. destruct (filter_passes_spec q σ Hσ) as (ns & Hrun & Hrest).
  exists ns. split; [|exact Hrest].
  unfold search_searchmarks. rewrite (bindM_ok _ _ _ _ _ Hrun). reflexivity.
Qed.

End Pipeline.

Lemma elem_of_later_filters q (σ : Store) l i :
  i ∈ later_filters q σ l <->
  i ∈ l /\
  kept (status q) status_cond σ i = true /\
  kept (asignProductMainCodeList q)
    (fun arg => code_cond (formatted_codes arg)) σ i = true /\
  kept (applicationNumber q) (field_contains "applicationNumber") σ i = true /\
  kept (publicationNumber q) (field_contains "publicationNumber") σ i = true /\
  kept (registrationNumber q) (field_contains "registrationNumber") σ i = true /\
  kept (internationalRegNumbers q)
    (field_contains "internationalRegNumbers") σ i = true /\
  kept (priorityClaimNumList q)
    (field_contains "priorityClaimNumList") σ i = true /\
  kept (viennaCodeList q) (field_contains "viennaCodeList") σ i = true.
Proof.
  unfold later_filters. cbv zeta. rewrite !list_elem_of_filter.
  rewrite !Is_true_true. tauto.
Qed.

Lemma later_filters_sublist q (σ : Store) l : later_filters q σ l `sublist_of` l.
Proof.
  unfold later_filters. cbv zeta.
  repeat (etransitivity; [apply sublist_filter|]). reflexivity.
Qed.

Lemma slice_to_sublist {A} (l : list A) lim : slice_to l lim `sublist_of` l.
Proof.
  unfold slice_to. destruct lim as [n|]; [|reflexivity].
  destruct (0 <=? n)%Z; apply sublist_take.
Qed.

(** ** Runs on any dataset *)

Section Runs.

Variable fuzz_ratio : string -> string -> Q.

Lemma filter_if_inv arg cond l (σ : Store) l' σ' :
  filter_if arg cond l σ = Ok (l', σ') ->
  σ' = σ /\ l' = filter (fun i => kept arg cond σ i) l.
Proof.
  unfold filter_if, kept. destruct (given arg) as [value|].
  - apply comprehension_inv.
  - unfold retM. intros H. injection H as <- <-. split; [reflexivity|].
    symmetry. apply filter_true.
Qed.

(** Without a fuzzy name filter the passes leave the store as it is and
    keep the dataset order. *)
Lemma filter_passes_plain_inv q (σ : Store) res σ' :
  given (productName q) = None \/ use_fuzzy_search q = false ->
  filter_passes fuzz_ratio q σ = Ok (res, σ') ->
  σ' = σ /\
  res = later_filters q σ
          (filter (fun i => name_kept fuzz_ratio q σ i) (seq 0 (length σ))).
Proof.
  intros Hplain H. unfold filter_passes in H.
  apply bindM_inv in H as (l0 & σ0 & H0 & H).
  unfold data_copy in H0. injection H0 as <- <-.
  apply bindM_inv in H as (l1 & σ1 & H1 & H).
  assert (Hn : σ1 = σ /\
    l1 = filter (fun i => name_kept fuzz_ratio q σ i) (seq 0 (length σ))).
  { unfold name_filter in H1. unfold name_kept.
    destruct (given (productName q)) as [query|] eqn:Eg.
    - destruct Hplain as [Hp|Hp]; [discriminate|]. rewrite Hp in *.
      apply comprehension_inv in H1. exact H1.
    - unfold retM in H1. injection H1 as <- <-. split; [reflexivity|].
      symmetry. apply filter_true. }
  destruct Hn as [-> ->]. clear H1.
  repeat match type of H with
  | bindM (filter_if _ _ _) _ _ = Ok _ =>
      let l := fresh "l" in let σ2 := fresh "σ" in
      let Hf := fresh "Hf" in
      apply bindM_inv in H as (l & σ2 & Hf & H);
      apply filter_if_inv in Hf as [-> ->]
  end.
  unfold retM in H. injection H as <- <-. split; reflexivity.
Qed.

Lemma search_searchmarks_unfold q (σ : Store) :
  search_searchmarks fuzz_ratio q σ =
  match filter_passes fuzz_ratio q σ with
  | Ok (full, σ') => Ok (slice_to full (limit q), σ')
  | Raise e => Raise e
  end.
Proof. reflexivity. Qed.

Lemma given_omit_empty arg : given (omit_empty arg) = given arg.
Proof. destruct arg as [[|c s]|]; reflexivity. Qed.

Lemma filter_passes_omit_empty q (σ : Store) :
  filter_passes fuzz_ratio (omit_empty_criteria q) σ =
  filter_passes fuzz_ratio q σ.
Proof.
  unfold filter_passes, name_filter, filter_if, omit_empty_criteria.
  cbn [productName status applicationNumber publicationNumber
       registrationNumber internationalRegNumbers priorityClaimNumList
       asignProductMainCodeList viennaCodeList limit use_fuzzy_search].
  rewrite !given_omit_empty. reflexivity.
Qed.

End Runs.

(** ** Statistics *)

Lemma key_eqb_sym a b : key_eqb a b = key_eqb b a.
Proof.
  assert (Hq : forall x y, Qeq_bool x y = Qeq_bool y x).
  { intros x y. destruct (Qeq_bool x y) eqn:E1, (Qeq_bool y x) eqn:E2;
      try reflexivity.
    - apply Qeq_bool_sym in E1. congruence.
    - apply Qeq_bool_sym in E2. congruence. }
  destruct a, b; cbn; try reflexivity; try apply Hq.
  apply String.eqb_sym.
Qed.

Lemma key_eqb_trans a b c :
  key_eqb a b = true -> key_eqb b c = true -> key_eqb a c = true.
Proof.
  destruct a, b, c; cbn; try discriminate; try (intros; reflexivity);
    try apply Qeq_bool_trans.
  intros H1 H2. apply String.eqb_eq in H1, H2. apply String.eqb_eq. congruence.
Qed.

Lemma key_eqb_refl k : hashable k = true -> key_eqb k k = true.
Proof.
  destruct k; cbn; try discriminate; intros _; try reflexivity;
    try apply Qeq_bool_refl.
  apply String.eqb_refl.
Qed.

Lemma key_eqb_congr k1 k2 key :
  key_eqb k1 k2 = true -> key_eqb k1 key = key_eqb k2 key.
Proof.
  intros H. destruct (key_eqb k1 key) eqn:E1, (key_eqb k2 key) eqn:E2;
    try reflexivity.
  - rewrite key_eqb_sym in H.
    rewrite (key_eqb_trans _ _ _ H E1) in E2. discriminate.
  - rewrite (key_eqb_trans _ _ _ H E2) in E1. discriminate.
Qed.

Lemma counts_get_congr counts k1 k2 default :
  key_eqb k1 k2 = true ->
  counts_get counts k1 default = counts_get counts k2 default.
Proof.
  intros H. induction counts as [|[k n] counts IH]; [reflexivity|].
  cbn. rewrite IH.
  rewrite (key_eqb_sym k k1), (key_eqb_sym k k2), (key_eqb_congr k1 k2 k H).
  reflexivity.
Qed.

Lemma counts_get_set counts k n key default :
  counts_get (counts_set counts k n) key default =
  if key_eqb k key then n else counts_get counts key default.
Proof.
  induction counts as [|[k0 m] counts IH]; [reflexivity|].
  cbn. destruct (key_eqb k0 k) eqn:E0.
  - cbn. rewrite (key_eqb_congr k0 k key E0).
    destruct (key_eqb k key); reflexivity.
  - cbn. rewrite IH. destruct (key_eqb k0 key) eqn:E1; [|reflexivity].
    destruct (key_eqb k key) eqn:E2; [|reflexivity].
    rewrite key_eqb_sym in E2.
    rewrite (key_eqb_trans _ _ _ E1 E2) in E0. discriminate.
Qed.

Lemma count_status_cons d data key :
  count_status (d :: data) key =
  ((if key_eqb (status_of d) key then 1 else 0) + count_status data key)%Z.
Proof.
  unfold count_status. rewrite filter_cons.
  destruct (key_eqb (status_of d) key); cbn;
    destruct (decide _) as [Hy|Hn]; try (exfalso; exact (Hn I));
    try destruct Hy; cbn [length]; lia.
Qed.

Lemma count_status_nonneg data key : (0 <= count_status data key)%Z.
Proof. unfold count_status. lia. Qed.

(** The loop of lines 192-194 adds to every key the number of records that
    carry it. *)
Lemma count_loop_spec data : forall counts,
  forallb (fun d => hashable (status_of d)) data = true ->
  exists counts',
    count_loop data counts = Ok counts' /\
    forall key, counts_get counts' key 0 =
                (counts_get counts key 0 + count_status data key)%Z.
Proof.
  induction data as [|d data IH]; intros counts Hh.
  - exists counts. split; [reflexivity|]. intros key.
    unfold count_status. cbn. lia.
  - cbn in Hh. apply andb_true_iff in Hh as [Hd Hh].
    cbn [count_loop]. rewrite Hd.
    destruct (IH (counts_set counts (status_of d)
                    (counts_get counts (status_of d) 0 + 1)%Z) Hh)
      as (counts' & Hrun & Hget).
    exists counts'. split; [exact Hrun|]. intros key.
    rewrite Hget, counts_get_set, count_status_cons.
    destruct (key_eqb (status_of d) key) eqn:E; [|lia].
    rewrite (counts_get_congr counts _ _ 0 E). lia.
Qed.

Lemma counts_set_keys counts k n e :
  e ∈ counts_set counts k n ->
  e = (k, n) \/ (exists m, (fst e, m) ∈ counts).
Proof.
  induction counts as [|[k0 m] counts IH]; cbn.
  - intros H. apply list_elem_of_singleton in H. left. exact H.
  - destruct (key_eqb k0 k).
    + intros H. apply elem_of_cons in H as [->|H].
      * right. exists m. left.
      * right. exists (snd e). right. destruct e; exact H.
    + intros H. apply elem_of_cons in H as [->|H].
      * right. exists m. left.
      * destruct (IH H) as [->|[m' Hm]]; [left; reflexivity|].
        right. exists m'. right. exact Hm.
Qed.

Lemma counts_set_distinct counts k n :
  distinct_keys counts -> distinct_keys (counts_set counts k n).
Proof.
  induction counts as [|[k0 m] counts IH]; cbn.
  - intros _. split; [constructor|exact I].
  - intros [Hall Hd]. destruct (key_eqb k0 k) eqn:E; cbn.
    + split; assumption.
    + split; [|apply IH, Hd].
      rewrite Forall_forall in *. intros e He.
      destruct (counts_set_keys _ _ _ _ He) as [->|[m' Hm]]; [exact E|].
      apply (Hall _ Hm).
Qed.

Lemma counts_get_entry counts k n default :
  distinct_keys counts -> hashable k = true -> (k, n) ∈ counts ->
  counts_get counts k default = n.
Proof.
  induction counts as [|[k0 m] counts IH]; cbn.
  - intros _ _ H. inversion H.
  - intros [Hall Hd] Hk H. apply elem_of_cons in H as [H|H].
    + injection H as <- <-. rewrite key_eqb_refl by exact Hk. reflexivity.
    + rewrite Forall_forall in Hall. pose proof (Hall _ H) as Hf.
      cbn in Hf. rewrite Hf. apply IH; assumption.
Qed.

(** The keys the loop leaves are the statuses it met, each once. *)
Lemma count_loop_keys data : forall counts counts',
  count_loop data counts = Ok counts' ->
  distinct_keys counts ->
  distinct_keys counts' /\
  forall e, e ∈ counts' ->
    (exists m, (fst e, m) ∈ counts) \/
    (exists d, d ∈ data /\ status_of d = fst e).
Proof.
  induction data as [|d data IH]; intros counts counts' Hrun Hd.
  - cbn in Hrun. injection Hrun as <-. split; [exact Hd|].
    intros [k n] He. left. exists n. exact He.
  - cbn [count_loop] in Hrun.
    destruct (hashable (status_of d)); [|discriminate].
    destruct (IH _ _ Hrun (counts_set_distinct _ _ _ Hd)) as [Hd' Hk].
    split; [exact Hd'|]. intros e He.
    destruct (Hk e He) as [[m Hm]|(d' & Hd1 & Hd2)].
    + destruct (counts_set_keys _ _ _ _ Hm) as [Heq|[m' Hm']].
      * right. exists d. split; [left|]. cbn in Heq. congruence.
      * left. exists m'. exact Hm'.
    + right. exists d'. split; [right; exact Hd1|exact Hd2].
Qed.

(** ** Strings *)

Lemma startswith_spec p s :
  startswith p s = true <-> exists post, s = p ++ post.
Proof.
  revert s. induction p as [|a p IH]; intros s; cbn.
  - split; [intros _; exists s; reflexivity|reflexivity].
  - destruct s as [|b s]; cbn.
    + split; [discriminate|intros [post H]; discriminate].
    + rewrite andb_true_iff, Ascii.eqb_eq, IH. split.
      * intros [-> [post ->]]. exists post. reflexivity.
      * intros [post H]. injection H as -> ->. split; [reflexivity|eauto].
Qed.

(** [x in s] holds exactly when [x] is a substring of [s]. *)
Lemma str_contains_spec x s :
  str_contains x s = true <-> exists pre post, s = pre ++ x ++ post.
Proof.
  induction s as [|c s IH]; cbn.
  - rewrite orb_false_r, startswith_spec. split.
    + intros [post H]. exists EmptyString, post. exact H.
    + intros (pre & post & H). destruct pre; [|discriminate].
      exists post. exact H.
  - rewrite orb_true_iff, startswith_spec, IH. split.
    + intros [[post H]|(pre & post & H)].
      * exists EmptyString, post. exact H.
      * exists (String c pre), post. cbn. rewrite H. reflexivity.
    + intros (pre & post & H). destruct pre as [|c' pre]; cbn in H.
      * left. exists post. exact H.
      * right. injection H as -> ->. exists pre, post. reflexivity.
Qed.

(** ** The instance of [fuzz.ratio] stays within 0 and 100 *)

Lemma lcs_cons x a y b :
  lcs (String x a) (String y b) =
  if Ascii.eqb x y then S (lcs a b)
  else Nat.max (lcs a (String y b)) (lcs (String x a) b).
Proof. reflexivity. Qed.

Lemma lcs_nil_r a : lcs a EmptyString = 0%nat.
Proof. destruct a; reflexivity. Qed.

Lemma lcs_bound a : forall b,
  (lcs a b <= String.length a)%nat /\ (lcs a b <= String.length b)%nat.
Proof.
  induction a as [|x a IHa]; intros b.
  - cbn. lia.
  - induction b as [|y b IHb].
    + rewrite lcs_nil_r. cbn. lia.
    + rewrite lcs_cons. cbn [String.length].
      destruct (Ascii.eqb x y).
      * destruct (IHa b). lia.
      * destruct (IHa (String y b)) as [H1 H2]. cbn [String.length] in *.
        destruct IHb as [H3 H4]. lia.
Qed.

Lemma indel_ratio_range a b : (0 <= indel_ratio a b <= 100)%Q.
Proof.
  unfold indel_ratio.
  destruct (String.length a + String.length b)%nat as [|n] eqn:E.
  - split; unfold Qle; cbn; lia.
  - destruct (lcs_bound a b) as [H1 H2].
    unfold Qle. cbn [Qnum Qden]. rewrite Zpos_P_of_succ_nat. split; lia.
Qed.

(** ** The sort key is always there *)

Lemma scored_insert (σ : Store) i j d key q :
  σ !! i = Some d -> key = "similarity_score" ->
  scored σ j \/ j = i -> scored (<[i := <[key := VNum q]> d]> σ) j.
Proof.
  intros Ei -> H. unfold scored. destruct (decide (i = j)) as [<-|Hne].
  - exists (<["similarity_score" := VNum q]> d), q.
    rewrite list_lookup_insert_eq by (eapply lookup_lt_Some; exact Ei).
    rewrite lookup_insert_eq. split; reflexivity.
  - destruct H as [(d' & q' & H1 & H2)|H]; [|congruence].
    exists d', q'. rewrite list_lookup_insert_ne by exact Hne.
    split; assumption.
Qed.

(** Whatever the dataset, the references the loop of lines 83-97 collects
    carry a number as their score. *)
Lemma fuzzy_loop_scored fuzz_ratio productName l :
  forall acc (σ : Store) res σ',
    fuzzy_loop fuzz_ratio productName l acc σ = Ok (res, σ') ->
    (forall i, i ∈ acc -> scored σ i) ->
    forall i, i ∈ res -> scored σ' i.
Proof.
  induction l as [|i l IH]; intros acc σ res σ' Hrun Hacc.
  - cbn in Hrun. injection Hrun as <- <-. exact Hacc.
  - cbn [fuzzy_loop] in Hrun.
    apply bindM_inv in Hrun as (d & σ1 & Hd & Hrun).
    unfold deref in Hd. destruct (σ !! i) as [d0|] eqn:Ei; [|discriminate].
    injection Hd as <- <-.
    apply bindM_inv in Hrun as (k & σ1 & Hk & Hrun).
    unfold lift in Hk.
    destruct (name_score fuzz_ratio productName "productName" d0);
      [|discriminate].
    injection Hk as <- <-.
    apply bindM_inv in Hrun as (e & σ1 & He & Hrun).
    unfold lift in He.
    destruct (name_score fuzz_ratio productName "productNameEng" d0);
      [|discriminate].
    injection He as <- <-. cbv zeta in Hrun.
    apply bindM_inv in Hrun as (acc' & σ1 & Hstep & Hrun).
    apply (IH _ _ _ _ Hrun). clear Hrun IH.
    destruct (Qle_bool 40 _).
    + apply bindM_inv in Hstep as ([] & σ2 & Hset & Hret).
      unfold setitem in Hset. rewrite Ei in Hset. injection Hset as <-.
      unfold retM in Hret. injection Hret as <- <-.
      intros j Hj. apply (scored_insert σ i j d0 _ _ Ei eq_refl).
      apply elem_of_app in Hj as [Hj|Hj]; [left; apply Hacc, Hj|].
      right. apply list_elem_of_singleton in Hj. exact Hj.
    + unfold retM in Hstep. injection Hstep as <- <-. exact Hacc.
Qed.

(** So the sort of line 100 never raises: its keys are there and are
    numbers. *)
Lemma sorted_by_score_returns fuzz_ratio productName l (σ : Store) res σ' :
  fuzzy_loop fuzz_ratio productName l [] σ = Ok (res, σ') ->
  exists ns, sorted_by_score res σ' = Ok (ns, σ').
Proof.
  intros Hrun. unfold sorted_by_score.
  assert (Hk : forall i, i ∈ res -> exists d,
                 σ' !! i = Some d /\ is_ok (score_key d) = true);
    [|rewrite (bindM_ok _ _ σ' _ σ' (with_keys_ok res σ' Hk));
      eexists; reflexivity].
  intros i Hi.
  destruct (fuzzy_loop_scored _ _ _ _ _ _ _ Hrun
              ltac:(intros j Hj; inversion Hj) i Hi) as (d & q & H1 & H2).
  exists d. split; [exact H1|]. unfold score_key, dict_item. rewrite H2.
  reflexivity.
Qed.

(** ** The claims *)

(** Supporting C1: without a fuzzy name filter a query that returns leaves
    every stored record as it was. *)
Lemma plain_search_preserves_dataset fuzz_ratio q (σ : Store) res σ' :
  given (productName q) = None \/ use_fuzzy_search q = false ->
  search_searchmarks fuzz_ratio q σ = Ok (res, σ') -> σ' = σ.
Proof.
  intros Hplain H. rewrite search_searchmarks_unfold in H.
  destruct (filter_passes fuzz_ratio q σ) as [[full σ1]|e] eqn:E; [|discriminate].
  apply (filter_passes_plain_inv _ _ _ _ _ Hplain) in E as [-> _].
  injection H as _ <-. reflexivity.
Qed.

(** C1, the code at the failing input: a fuzzy query for "aple" on a dataset
    holding one record named "apple" returns that record and leaves the
    score 800/9 written on the stored record, so the dataset after the query
    is not the dataset before it. *)
Theorem fuzzy_search_writes_score_on_dataset :
  search_searchmarks indel_ratio (only_name "aple" true) apple_dataset =
    Ok ([0%nat],
        [ <["similarity_score" := VNum (800 # 9)]>
            {[ "productName" := VStr "apple" ]} ]) /\
  store_after
    (search_searchmarks indel_ratio (only_name "aple" true) apple_dataset)
  <> Some apple_dataset.
Proof.
  assert (H : search_searchmarks indel_ratio (only_name "aple" true)
                apple_dataset =
              Ok ([0%nat],
                  [ <["similarity_score" := VNum (800 # 9)]>
                      {[ "productName" := VStr "apple" ]} ]))
    by (vm_compute; reflexivity).
  split; [exact H|]. intros Heq.
  apply (f_equal (fun o : option Store =>
                    match o with
                    | Some (d :: _) => d !! "similarity_score"
                    | _ => None
                    end)) in Heq.
  vm_compute in Heq. discriminate.
Qed.

(** C2, the code at the failing input: on a dataset whose one record has the
    main code list ["07"], the filter "7" is normalized to "07" and returns
    the record, while the filter "07" is normalized to "007" and returns
    nothing. *)
Theorem padded_code_filter_misses_padded_record :
  formatted_codes "7" = ["07"] /\
  formatted_codes "07" = ["007"] /\
  returned (search_searchmarks indel_ratio (only_codes "7") code_07_dataset)
    = Some [0%nat] /\
  returned (search_searchmarks indel_ratio (only_codes "07") code_07_dataset)
    = Some [].
Proof. repeat split; vm_compute; reflexivity. Qed.

(** C3, the code at the failing input: the plain name filter lowers the
    query but not the stored names, so the query "apple" does not match the
    record named "Apple Inc", although it is a substring of that name once
    both are in lower case. *)
Theorem plain_name_filter_is_case_sensitive :
  str_contains (lower "apple") (lower "Apple Inc") = true /\
  returned
    (search_searchmarks indel_ratio (only_name "apple" false) apple_inc_dataset)
  = Some [].
Proof. split; vm_compute; reflexivity. Qed.

(** *** The fuzzy ranker *)

Lemma StronglySorted_lookup_lt {A} (R : relation A) (l : list A) a b x y :
  StronglySorted R l -> (a < b)%nat ->
  l !! a = Some x -> l !! b = Some y -> R x y.
Proof.
  intros Hs. revert a b. induction Hs as [|z l Hs IH Hz]; intros a b Hab Ha Hb.
  - discriminate.
  - destruct b as [|b]; [lia|]. cbn in Hb. destruct a as [|a].
    + cbn in Ha. injection Ha as <-. rewrite Forall_forall in Hz.
      apply Hz. eapply list_elem_of_lookup_2. exact Hb.
    + cbn in Ha. apply (IH a b); [lia|assumption..].
Qed.

Lemma field_similarity_range fuzz_ratio query o :
  (forall a b, 0 <= fuzz_ratio a b <= 100)%Q ->
  (0 <= field_similarity fuzz_ratio query o <= 100)%Q.
Proof.
  intros H. unfold field_similarity.
  destruct o as [[]|]; try (split; unfold Qle; cbn; lia).
  destruct (str_truthy s); [apply H|split; unfold Qle; cbn; lia].
Qed.

Lemma best_similarity_range fuzz_ratio query d :
  (forall a b, 0 <= fuzz_ratio a b <= 100)%Q ->
  (0 <= best_similarity fuzz_ratio query d <= 100)%Q.
Proof.
  intros H. unfold best_similarity, Qmax, GenericMinMax.gmax.
  destruct (Qcompare _ _); apply field_similarity_range, H.
Qed.

Lemma only_name_members query fuzzy (σ : Store) l i :
  i ∈ slice_to (later_filters (only_name query fuzzy) σ l)
        (limit (only_name query fuzzy)) <-> i ∈ l.
Proof.
  cbn [slice_to limit only_name]. rewrite elem_of_later_filters.
  unfold kept. cbn. tauto.
Qed.

(** C4: in fuzzy mode the score of a record is the greater of the
    similarities (each within 0 and 100) of the lower-cased query with its
    lower-cased primary and English names, a missing name counting 0; the
    record is returned exactly when that score is at least 40 (so at 40 it
    is, at 39 it is not), and the score is what is written on a returned
    record. *)
Theorem fuzzy_score_and_threshold fuzz_ratio (σ : Store) (query : string) :
  (forall a b, 0 <= fuzz_ratio a b <= 100)%Q ->
  dataset_typed σ = true ->
  str_truthy query = true ->
  exists res σ',
    search_searchmarks fuzz_ratio (only_name query true) σ = Ok (res, σ') /\
    forall i d, σ !! i = Some d ->
      let score := best_similarity fuzz_ratio query d in
      (0 <= score <= 100)%Q /\
      (i ∈ res <-> (40 <= score)%Q) /\
      (score == 40 -> i ∈ res)%Q /\
      (score == 39 -> i ∉ res)%Q /\
      (i ∈ res -> σ' !! i = Some (<["similarity_score" := VNum score]> d)) /\
      (i ∉ res -> σ' !! i = Some d).
Proof.
  intros Hrange Hσ Hq.
  destruct (search_searchmarks_spec fuzz_ratio (only_name query true) σ Hσ)
    as (ns & Hrun & Hperm & _ & _).
  eexists _, _. split; [exact Hrun|]. intros i d Ei score.
  assert (Hg : given (productName (only_name query true)) = Some query).
  { cbn. rewrite Hq. reflexivity. }
  assert (Hmem : i ∈ slice_to (later_filters (only_name query true) σ ns)
                       (limit (only_name query true)) <-> (40 <= score)%Q).
  { rewrite only_name_members, Hperm, list_elem_of_filter.
    unfold name_kept. rewrite Hg. cbn [use_fuzzy_search only_name].
    unfold hit. rewrite Ei. fold score.
    rewrite Is_true_true, Qle_bool_iff, seq_valid, Ei. intuition eauto. }
  assert (Hst : final_store fuzz_ratio (only_name query true) σ !! i =
                Some (rescore fuzz_ratio query d)).
  { unfold final_store. rewrite Hg. cbn [use_fuzzy_search only_name].
    rewrite list_lookup_fmap, Ei. reflexivity. }
  split; [apply best_similarity_range, Hrange|].
  split; [exact Hmem|].
  split; [intros H; apply Hmem; rewrite H; unfold Qle; cbn; lia|].
  split; [intros H Hin; apply Hmem in Hin; rewrite H in Hin;
          unfold Qle in Hin; cbn in Hin; lia|].
  split.
  - intros Hin. apply Hmem, Qle_bool_iff in Hin. rewrite Hst.
    unfold rescore. fold score. rewrite Hin. reflexivity.
  - intros Hout. rewrite Hst. unfold rescore. fold score.
    destruct (Qle_bool 40 score) eqn:E; [|reflexivity].
    exfalso. apply Hout, Hmem, Qle_bool_iff, E.
Qed.

(** The ranking of the example dataset: the exact match first, then the two
    records of equal score in dataset order; the last record is below the
    threshold. *)
Example fuzzy_ranking_example :
  returned (search_searchmarks indel_ratio (only_name "apple" true) fruit_dataset)
  = Some [1; 0; 2]%nat.
Proof. vm_compute. reflexivity. Qed.

(** The threshold on the example dataset, with the Indel ratio. *)
Lemma fuzzy_score_and_threshold_witness :
  ((forall a b, 0 <= indel_ratio a b <= 100)%Q /\
   dataset_typed fruit_dataset = true /\ str_truthy "apple" = true) /\
  exists res σ',
    search_searchmarks indel_ratio (only_name "apple" true) fruit_dataset =
      Ok (res, σ') /\
    forall i d, fruit_dataset !! i = Some d ->
      let score := best_similarity indel_ratio "apple" d in
      (0 <= score <= 100)%Q /\
      (i ∈ res <-> (40 <= score)%Q) /\
      (score == 40 -> i ∈ res)%Q /\
      (score == 39 -> i ∉ res)%Q /\
      (i ∈ res -> σ' !! i = Some (<["similarity_score" := VNum score]> d)) /\
      (i ∉ res -> σ' !! i = Some d).
Proof.
  split; [split; [exact indel_ratio_range|split; reflexivity]|].
  apply (fuzzy_score_and_threshold indel_ratio fruit_dataset "apple"
           indel_ratio_range); reflexivity.
Defined.

(** *** The plain name filter *)

Lemma field_contains_name key value d :
  is_name (d !! key) = true -> str_truthy value = true ->
  (field_contains key value d = Ok true <-> name_has value (d !! key)).
Proof.
  unfold field_contains, dict_get, dict_item, name_has.
  destruct (d !! key) as [v|].
  - destruct v; try discriminate; intros _ Hv; cbn [truthy].
    + split; [discriminate|]. intros (s & H & _). discriminate.
    + destruct s as [|c s]; cbn [str_truthy bindR py_in].
      * split; [discriminate|]. intros (s & H & pre & post & Hs).
        injection H as <-. destruct pre; [|discriminate].
        destruct value; discriminate.
      * split.
        -- intros H. injection H as H. exists (String c s).
           split; [reflexivity|]. apply str_contains_spec, H.
        -- intros (s' & H & Hs). injection H as <-. f_equal.
           apply str_contains_spec, Hs.
  - intros _ _. split; [discriminate|]. intros (s & H & _). discriminate.
Qed.

Lemma str_truthy_lower s : str_truthy (lower s) = str_truthy s.
Proof. destruct s; reflexivity. Qed.

(** Supporting C3: what the plain name filter does on a typed dataset.  A
    record is returned exactly when the lower-cased query is a substring of
    its primary name or of its English name as they are stored; the result
    is in dataset order and the store is left as it was. *)
Lemma plain_name_filter_matches_stored_names fuzz_ratio (σ : Store) query :
  dataset_typed σ = true ->
  str_truthy query = true ->
  exists res,
    search_searchmarks fuzz_ratio (only_name query false) σ = Ok (res, σ) /\
    StronglySorted lt res /\
    forall i d, σ !! i = Some d ->
      (i ∈ res <->
       name_has (lower query) (d !! "productName") \/
       name_has (lower query) (d !! "productNameEng")).
Proof.
  intros Hσ Hq.
  destruct (search_searchmarks_spec fuzz_ratio (only_name query false) σ Hσ)
    as (ns & Hrun & Hperm & Heq & _).
  assert (Hg : given (productName (only_name query false)) = Some query).
  { cbn. rewrite Hq. reflexivity. }
  assert (Hst : final_store fuzz_ratio (only_name query false) σ = σ).
  { unfold final_store. rewrite Hg. reflexivity. }
  rewrite Hst in Hrun. eexists. split; [exact Hrun|]. split.
  - eapply StronglySorted_sublist; [|apply (seq_increasing 0 (length σ))].
    etransitivity; [apply slice_to_sublist|].
    etransitivity; [apply later_filters_sublist|].
    rewrite (Heq (or_intror eq_refl)). apply sublist_filter.
  - intros i d Ei. rewrite only_name_members, Hperm, list_elem_of_filter.
    rewrite seq_valid, Ei. unfold name_kept. rewrite Hg.
    cbn [use_fuzzy_search only_name]. unfold passes. rewrite Ei.
    pose proof (dataset_typed_lookup σ i d Hσ Ei) as Hd.
    apply record_typed_name in Hd as [H1 H2].
    assert (Hl : str_truthy (lower query) = true)
      by (rewrite str_truthy_lower; exact Hq).
    rewrite <- (field_contains_name "productName" _ d H1 Hl).
    rewrite <- (field_contains_name "productNameEng" _ d H2 Hl).
    unfold name_cond.
    pose proof (field_contains_ok "productName" (lower query) d
                  (is_name_text _ H1)) as Hk.
    destruct (field_contains "productName" (lower query) d) as [[]|];
      try discriminate; cbn [bindR].
    + intuition eauto.
    + destruct (field_contains "productNameEng" (lower query) d) as [[]|];
        cbn; intuition (try congruence; eauto).
Qed.

(** *** The code-list filter *)

Lemma eq_str_true e x : eq_str e x = true <-> e = VStr x.
Proof.
  destruct e; cbn; try (split; [discriminate|intros H; discriminate]).
  rewrite String.eqb_eq. split; [intros ->; reflexivity|intros H; congruence].
Qed.

Lemma any_in_true codes v :
  is_text_or_list (Some v) = true -> truthy v = true ->
  (any_in codes v = Ok true <->
   exists code, code ∈ codes /\ py_in code v = Ok true).
Proof.
  intros Ht Hv. induction codes as [|c codes IH]; cbn.
  - split; [discriminate|]. intros (code & H & _). inversion H.
  - pose proof (py_in_ok c v Ht Hv) as Hok.
    destruct (py_in c v) as [b|] eqn:E; [|discriminate]. cbn.
    destruct b.
    + split; [|reflexivity]. intros _. exists c. split; [left|exact E].
    + rewrite IH. split.
      * intros (code & H1 & H2). exists code. split; [right; exact H1|exact H2].
      * intros (code & H1 & H2). apply elem_of_cons in H1 as [->|H1].
        -- rewrite E in H2. discriminate.
        -- exists code. split; assumption.
Qed.

Lemma code_cond_true codes d :
  is_text_or_list (d !! "asignProductMainCodeList") = true ->
  (code_cond codes d = Ok true <->
   has_code codes (d !! "asignProductMainCodeList")).
Proof.
  unfold code_cond, dict_get, dict_item, has_code.
  destruct (d !! "asignProductMainCodeList") as [v|];
    [|intros _; split; [discriminate|intros []]].
  intros Ht. destruct v; try discriminate; cbn [truthy].
  - split; [discriminate|intros []].
  - destruct s as [|c s]; cbn [str_truthy].
    + split; [discriminate|]. intros [H _]. congruence.
    + cbn [bindR]. rewrite any_in_true by reflexivity. split.
      * intros (code & H1 & H2). split; [discriminate|]. exists code.
        split; [exact H1|]. cbn in H2. injection H2 as H2.
        apply str_contains_spec, H2.
      * intros (_ & code & H1 & H2). exists code. split; [exact H1|].
        cbn [py_in]. f_equal. apply str_contains_spec, H2.
  - destruct l as [|e l].
    + split; [discriminate|]. intros (code & _ & H). inversion H.
    + cbn [bindR]. rewrite any_in_true by reflexivity. split.
      * intros (code & H1 & H2). exists code. split; [exact H1|].
        unfold py_in in H2.
        assert (H3 : existsb (fun x => eq_str x code) (e :: l) = true)
          by congruence.
        apply existsb_exists in H3 as (x & Hx & Hxe).
        apply eq_str_true in Hxe as ->. apply list_elem_of_In, Hx.
      * intros (code & H1 & H2). exists code. split; [exact H1|].
        cbn [py_in]. f_equal. apply existsb_exists. exists (VStr code).
        split; [apply list_elem_of_In, H2|apply eq_str_true; reflexivity].
Qed.

(** C6, the claim at a concrete input: the filter "12" is normalized to
    "12", which is a substring of the one code "120" of the record, and the
    record is not returned. *)
Lemma code_filter_not_substring_on_lists :
  returned (search_searchmarks indel_ratio (only_codes "12") code_120_dataset)
    = Some [] /\
  code_120_dataset !! 0%nat =
    Some {[ "asignProductMainCodeList" := VList [VStr "120"] ]} /\
  exists code, code ∈ formatted_codes "12" /\ str_contains code "120" = true.
Proof.
  split; [vm_compute; reflexivity|]. split; [reflexivity|].
  exists "12". split; [left|reflexivity].
Qed.

(** C6, amended: with the code-list filter alone, a record is returned
    exactly when its main-code field holds one of the normalized codes: as an
    element equal to the code when the field is a list, as a substring when
    the field is a non-empty string. *)
Theorem code_filter_membership fuzz_ratio (σ : Store) (arg : string) :
  dataset_typed σ = true ->
  str_truthy arg = true ->
  exists res,
    search_searchmarks fuzz_ratio (only_codes arg) σ = Ok (res, σ) /\
    forall i d, σ !! i = Some d ->
      (i ∈ res <->
       has_code (formatted_codes arg) (d !! "asignProductMainCodeList")).
Proof.
  intros Hσ Harg.
  destruct (search_searchmarks_spec fuzz_ratio (only_codes arg) σ Hσ)
    as (ns & Hrun & Hperm & _ & _).
  eexists. split; [exact Hrun|]. intros i d Ei.
  cbn [slice_to limit only_codes]. rewrite elem_of_later_filters, Hperm.
  rewrite list_elem_of_filter, seq_valid, Ei.
  unfold kept, name_kept. cbn. rewrite Harg.
  rewrite <- code_cond_true.
  - unfold passes. rewrite Ei.
    destruct (code_cond (formatted_codes arg) d) as [[]|];
      intuition (eauto; try discriminate).
  - apply (record_typed_field d _ (dataset_typed_lookup σ i d Hσ Ei)).
    unfold searched_fields. left.
Qed.

(** The code-list filter on a record whose code list is ["120"]. *)
Lemma code_filter_membership_witness :
  (dataset_typed code_120_dataset = true /\ str_truthy "12, 120" = true) /\
  exists res,
    search_searchmarks indel_ratio (only_codes "12, 120") code_120_dataset =
      Ok (res, code_120_dataset) /\
    forall i d, code_120_dataset !! i = Some d ->
      (i ∈ res <->
       has_code (formatted_codes "12, 120") (d !! "asignProductMainCodeList")).
Proof.
  split; [split; reflexivity|].
  apply (code_filter_membership indel_ratio code_120_dataset "12, 120");
    reflexivity.
Defined.

(** *** The records a query matches *)

Lemma given_truthy arg value : given arg = Some value -> str_truthy value = true.
Proof.
  unfold given. destruct arg as [s|]; [|discriminate].
  destruct (str_truthy s) eqn:E; [|discriminate]. intros H. congruence.
Qed.

Lemma substring_nonempty x s :
  str_truthy x = true -> (exists pre post, s = pre ++ x ++ post) ->
  str_truthy s = true.
Proof.
  intros Hx (pre & post & ->). destruct pre; [|reflexivity].
  destruct x; [discriminate|reflexivity].
Qed.

(** [item.get(key) and value in item[key]] on a field that is absent, null, a
    string or a list. *)
Lemma field_contains_true key value d :
  is_text_or_list (d !! key) = true -> str_truthy value = true ->
  (field_contains key value d = Ok true <-> value_in value (d !! key)).
Proof.
  unfold field_contains, dict_get, dict_item, value_in.
  destruct (d !! key) as [v|]; [|intros _ _; split; [discriminate|intros []]].
  destruct v; try discriminate; intros _ Hv; cbn [truthy].
  - split; [discriminate|intros []].
  - destruct (str_truthy s) eqn:Es.
    + cbn [bindR py_in]. rewrite <- str_contains_spec.
      split; [intros H; congruence|intros ->; reflexivity].
    + split; [discriminate|]. intros H.
      rewrite (substring_nonempty value s Hv H) in Es. discriminate.
  - destruct l as [|e l].
    + split; [discriminate|]. intros H. inversion H.
    + cbn [bindR py_in]. split.
      * intros H.
        assert (H3 : existsb (fun x => eq_str x value) (e :: l) = true)
          by congruence.
        apply existsb_exists in H3 as (x & Hx & Hxe).
        apply eq_str_true in Hxe as ->. apply list_elem_of_In, Hx.
      * intros H. f_equal. apply existsb_exists. exists (VStr value).
        split; [apply list_elem_of_In, H|apply eq_str_true; reflexivity].
Qed.

Lemma status_cond_true value d :
  status_cond value d = Ok true <-> d !! "registerStatus" = Some (VStr value).
Proof.
  unfold status_cond, dict_get. destruct (d !! "registerStatus") as [v|].
  - split.
    + intros H. injection H as H. apply eq_str_true in H. congruence.
    + intros H. injection H as ->. cbn. rewrite String.eqb_refl. reflexivity.
  - split; discriminate.
Qed.

Lemma kept_when_given arg cond (P : string -> Prop) (σ : Store) i d :
  σ !! i = Some d ->
  (forall value, str_truthy value = true -> (cond value d = Ok true <-> P value)) ->
  (kept arg cond σ i = true <-> when_given arg P).
Proof.
  intros Ei H. unfold kept, when_given, passes.
  destruct (given arg) as [value|] eqn:Eg; [|tauto].
  rewrite Ei, <- (H value (given_truthy _ _ Eg)).
  destruct (cond value d) as [[]|]; split; congruence.
Qed.

Lemma name_cond_true value d :
  is_name (d !! "productName") = true ->
  is_name (d !! "productNameEng") = true ->
  str_truthy value = true ->
  (name_cond value d = Ok true <->
   name_has value (d !! "productName") \/
   name_has value (d !! "productNameEng")).
Proof.
  intros H1 H2 Hv.
  rewrite <- (field_contains_name "productName" _ d H1 Hv).
  rewrite <- (field_contains_name "productNameEng" _ d H2 Hv).
  unfold name_cond.
  pose proof (field_contains_ok "productName" value d (is_name_text _ H1)) as Hk.
  destruct (field_contains "productName" value d) as [[]|];
    try discriminate; cbn [bindR].
  - intuition eauto.
  - intuition congruence.
Qed.

Lemma name_kept_matches fuzz_ratio q (σ : Store) i d :
  σ !! i = Some d -> record_typed d = true ->
  (name_kept fuzz_ratio q σ i = true <->
   when_given (productName q)
     (fun v => name_matches fuzz_ratio (use_fuzzy_search q) v d)).
Proof.
  intros Ei Hd. unfold name_kept, when_given, name_matches.
  destruct (given (productName q)) as [query|] eqn:Eg; [|tauto].
  destruct (use_fuzzy_search q).
  - unfold hit. rewrite Ei. apply Qle_bool_iff.
  - apply record_typed_name in Hd as [H1 H2].
    rewrite <- (name_cond_true (lower query) d H1 H2)
      by (rewrite str_truthy_lower; exact (given_truthy _ _ Eg)).
    unfold passes. rewrite Ei.
    destruct (name_cond (lower query) d) as [[]|]; split; congruence.
Qed.

(** The members of the list the later passes leave. *)
Lemma later_filters_matches fuzz_ratio q (σ : Store) ns i d :
  dataset_typed σ = true -> σ !! i = Some d ->
  ns ≡ₚ filter (fun i => name_kept fuzz_ratio q σ i) (seq 0 (length σ)) ->
  (i ∈ later_filters q σ ns <-> matches fuzz_ratio q d).
Proof.
  intros Hσ Ei Hperm.
  pose proof (dataset_typed_lookup σ i d Hσ Ei) as Hd.
  assert (Hf : forall key, key ∈ searched_fields -> forall arg,
            kept arg (field_contains key) σ i = true <->
            when_given arg (fun v => value_in v (d !! key))).
  { intros key Hk arg. apply (kept_when_given _ _ _ σ i d Ei).
    intros value Hv. apply field_contains_true; [|exact Hv].
    apply (record_typed_field d key Hd Hk). }
  assert (Hin : forall key, In key searched_fields -> key ∈ searched_fields)
    by (intros key; apply list_elem_of_In).
  rewrite elem_of_later_filters, Hperm, list_elem_of_filter, seq_valid, Ei.
  rewrite Is_true_true, (name_kept_matches fuzz_ratio _ σ i d Ei Hd).
  rewrite (kept_when_given (status q) status_cond _ σ i d Ei
             (fun value _ => status_cond_true value d)).
  rewrite (kept_when_given (asignProductMainCodeList q) _
             (fun v => has_code (formatted_codes v)
                         (d !! "asignProductMainCodeList")) σ i d Ei)
    by (intros value _; apply code_cond_true;
        apply (record_typed_field d _ Hd); unfold searched_fields; left).
  rewrite (Hf "applicationNumber" (Hin "applicationNumber" ltac:(cbn; tauto))).
  rewrite (Hf "publicationNumber" (Hin "publicationNumber" ltac:(cbn; tauto))).
  rewrite (Hf "registrationNumber" (Hin "registrationNumber" ltac:(cbn; tauto))).
  rewrite (Hf "internationalRegNumbers"
             (Hin "internationalRegNumbers" ltac:(cbn; tauto))).
  rewrite (Hf "priorityClaimNumList"
             (Hin "priorityClaimNumList" ltac:(cbn; tauto))).
  rewrite (Hf "viennaCodeList" (Hin "viennaCodeList" ltac:(cbn; tauto))).
  unfold matches. intuition eauto.
Qed.

(** *** The ranking *)

(** C5: in fuzzy mode the records that survive are returned, sorted.  The
    list [full] the query returns without limit holds, once each, exactly
    the records whose similarity is at least 40 and of which the other
    given criteria hold; it is ordered by the stored similarity score,
    greatest first, and two records with the same score come in their
    dataset order; the stored score of a returned record is its similarity.
    The result [res] is [full] cut to the limit, in the same order. *)
Theorem fuzzy_results_ranked_stably fuzz_ratio q (σ : Store) (query : string) :
  dataset_typed σ = true ->
  given (productName q) = Some query ->
  use_fuzzy_search q = true ->
  exists res σ' full,
    search_searchmarks fuzz_ratio q σ = Ok (res, σ') /\
    search_searchmarks fuzz_ratio (with_limit q None) σ = Ok (full, σ') /\
    res = slice_to full (limit q) /\
    NoDup full /\
    (forall i d, σ !! i = Some d ->
       (i ∈ full <->
        (40 <= best_similarity fuzz_ratio query d)%Q /\
        matches fuzz_ratio (with_name q None false) d)) /\
    (forall i, i ∈ full -> exists d,
       σ !! i = Some d /\
       stored_score σ' i = best_similarity fuzz_ratio query d) /\
    (forall a b i j, (a < b)%nat -> full !! a = Some i -> full !! b = Some j ->
       (stored_score σ' j <= stored_score σ' i)%Q /\
       (stored_score σ' i == stored_score σ' j -> (i < j)%nat)%Q) /\
    (forall i, i ∈ res -> exists d,
       σ !! i = Some d /\
       stored_score σ' i = best_similarity fuzz_ratio query d) /\
    forall a b i j, (a < b)%nat -> res !! a = Some i -> res !! b = Some j ->
      (stored_score σ' j <= stored_score σ' i)%Q /\
      (stored_score σ' i == stored_score σ' j -> (i < j)%nat)%Q.
Proof.
  intros Hσ Hg Hf.
  destruct (filter_passes_spec fuzz_ratio q σ Hσ)
    as (ns & Hrun & Hperm & _ & Hsort).
  exists (slice_to (later_filters q σ ns) (limit q)),
         (final_store fuzz_ratio q σ), (later_filters q σ ns).
  assert (Hsub : later_filters q σ ns `sublist_of` ns)
    by apply later_filters_sublist.
  assert (Hsub' : slice_to (later_filters q σ ns) (limit q)
                    `sublist_of` later_filters q σ ns)
    by apply slice_to_sublist.
  assert (Hnd : NoDup ns).
  { rewrite Hperm. apply NoDup_filter, NoDup_seq. }
  assert (Hscore : forall i, i ∈ later_filters q σ ns -> exists d,
            σ !! i = Some d /\
            stored_score (final_store fuzz_ratio q σ) i =
            best_similarity fuzz_ratio query d).
  { intros i Hi. apply (elem_of_sublist _ _ _ Hi) in Hsub.
    rewrite Hperm in Hsub. apply list_elem_of_filter in Hsub as [Hhit _].
    unfold name_kept in Hhit. rewrite Hg, Hf in Hhit.
    apply Is_true_true_1 in Hhit. unfold hit in Hhit.
    destruct (σ !! i) as [d|] eqn:Ei; [|discriminate].
    exists d. split; [reflexivity|].
    unfold stored_score, final_store. rewrite Hg, Hf, list_lookup_fmap, Ei.
    cbn. unfold rescore. rewrite Hhit, score_key_mark. reflexivity. }
  assert (Hs : StronglySorted (ranked_before (final_store fuzz_ratio q σ))
                 (later_filters q σ ns)).
  { eapply StronglySorted_sublist; [exact Hsub|].
    apply Hsort; [rewrite Hg; eauto|exact Hf]. }
  assert (Hord : forall l, l `sublist_of` later_filters q σ ns ->
            forall a b i j, (a < b)%nat -> l !! a = Some i -> l !! b = Some j ->
            (stored_score (final_store fuzz_ratio q σ) j <=
             stored_score (final_store fuzz_ratio q σ) i)%Q /\
            (stored_score (final_store fuzz_ratio q σ) i ==
             stored_score (final_store fuzz_ratio q σ) j -> (i < j)%nat)%Q).
  { intros l Hl a b i j Hab Ha Hb.
    pose proof (StronglySorted_sublist _ _ _ Hl Hs) as Hsl.
    destruct (StronglySorted_lookup_lt _ _ a b i j Hsl Hab Ha Hb)
      as [H|[H1 H2]].
    - split; [apply Qlt_le_weak, H|].
      intros Heq. rewrite Heq in H. exfalso. exact (Qlt_irrefl _ H).
    - split; [rewrite H1; apply Qle_refl|intros _; exact H2]. }
  split; [|split; [|split; [|split; [|split; [|split; [|split; [|split]]]]]]].
  - rewrite search_searchmarks_unfold, Hrun. reflexivity.
  - rewrite search_searchmarks_unfold.
    change (filter_passes fuzz_ratio (with_limit q None) σ)
      with (filter_passes fuzz_ratio q σ).
    rewrite Hrun. reflexivity.
  - reflexivity.
  - eapply sublist_NoDup; eassumption.
  - intros i d Ei.
    rewrite (later_filters_matches fuzz_ratio q σ ns i d Hσ Ei Hperm).
    unfold matches, when_given, name_matches.
    cbn [productName status applicationNumber publicationNumber
         registrationNumber internationalRegNumbers priorityClaimNumList
         asignProductMainCodeList viennaCodeList use_fuzzy_search with_name
         given].
    rewrite Hg, Hf. tauto.
  - exact Hscore.
  - apply Hord. reflexivity.
  - intros i Hi. apply Hscore. eapply elem_of_sublist; eassumption.
  - apply Hord. exact Hsub'.
Qed.

(** The ranking on the example dataset, which has two records of equal
    score; three records are returned. *)
Lemma fuzzy_results_ranked_stably_witness :
  (dataset_typed fruit_dataset = true /\
   given (productName (only_name "apple" true)) = Some "apple" /\
   use_fuzzy_search (only_name "apple" true) = true) /\
  exists res σ' full,
    search_searchmarks indel_ratio (only_name "apple" true) fruit_dataset =
      Ok (res, σ') /\
    search_searchmarks indel_ratio
      (with_limit (only_name "apple" true) None) fruit_dataset =
      Ok (full, σ') /\
    res = slice_to full (limit (only_name "apple" true)) /\
    NoDup full /\
    (forall i d, fruit_dataset !! i = Some d ->
       (i ∈ full <->
        (40 <= best_similarity indel_ratio "apple" d)%Q /\
        matches indel_ratio (with_name (only_name "apple" true) None false) d)) /\
    (forall i, i ∈ full -> exists d,
       fruit_dataset !! i = Some d /\
       stored_score σ' i = best_similarity indel_ratio "apple" d) /\
    (forall a b i j, (a < b)%nat -> full !! a = Some i -> full !! b = Some j ->
       (stored_score σ' j <= stored_score σ' i)%Q /\
       (stored_score σ' i == stored_score σ' j -> (i < j)%nat)%Q) /\
    (forall i, i ∈ res -> exists d,
       fruit_dataset !! i = Some d /\
       stored_score σ' i = best_similarity indel_ratio "apple" d) /\
    forall a b i j, (a < b)%nat -> res !! a = Some i -> res !! b = Some j ->
      (stored_score σ' j <= stored_score σ' i)%Q /\
      (stored_score σ' i == stored_score σ' j -> (i < j)%nat)%Q.
Proof.
  split; [repeat split|].
  apply (fuzzy_results_ranked_stably indel_ratio (only_name "apple" true)
           fruit_dataset "apple"); reflexivity.
Defined.

(** *** The limit *)

(** C7: the result of [search_searchmarks] is the list the filter passes
    produce, cut to [limit]: all of it when the limit is [None], nothing
    when it is 0, and its first [n] references for a limit [n >= 0]. *)
Theorem search_truncates_to_limit fuzz_ratio q (σ : Store) :
  search_searchmarks fuzz_ratio q σ =
    match filter_passes fuzz_ratio q σ with
    | Ok (full, σ') => Ok (slice_to full (limit q), σ')
    | Raise e => Raise e
    end /\
  search_searchmarks fuzz_ratio (with_limit q None) σ =
    filter_passes fuzz_ratio q σ /\
  search_searchmarks fuzz_ratio (with_limit q (Some 0%Z)) σ =
    match filter_passes fuzz_ratio q σ with
    | Ok (_, σ') => Ok ([], σ')
    | Raise e => Raise e
    end /\
  forall n : nat,
    search_searchmarks fuzz_ratio (with_limit q (Some (Z.of_nat n))) σ =
    match filter_passes fuzz_ratio q σ with
    | Ok (full, σ') => Ok (take n full, σ')
    | Raise e => Raise e
    end.
Proof.
  assert (Hp : forall l, filter_passes fuzz_ratio (with_limit q l) σ =
                         filter_passes fuzz_ratio q σ) by reflexivity.
  split; [reflexivity|]. split; [|split].
  - rewrite search_searchmarks_unfold, Hp.
    destruct (filter_passes fuzz_ratio q σ) as [[full σ']|e]; reflexivity.
  - rewrite search_searchmarks_unfold, Hp.
    destruct (filter_passes fuzz_ratio q σ) as [[full σ']|e]; reflexivity.
  - intros n. rewrite search_searchmarks_unfold, Hp.
    destruct (filter_passes fuzz_ratio q σ) as [[full σ']|e]; [|reflexivity].
    cbn. destruct (0 <=? Z.of_nat n)%Z eqn:E; [|apply Z.leb_gt in E; lia].
    rewrite Nat2Z.id. reflexivity.
Qed.

(** *** Statistics *)

Lemma statuses_strings_hashable (σ : Store) :
  statuses_strings σ = true -> statuses_hashable σ = true.
Proof.
  unfold statuses_strings, statuses_hashable. rewrite !forallb_forall.
  intros H d Hd. specialize (H d Hd). unfold status_of.
  destruct (d !! "registerStatus") as [[]|]; try discriminate; reflexivity.
Qed.

Lemma statuses_strings_status (σ : Store) d :
  statuses_strings σ = true -> d ∈ σ -> exists s, status_of d = VStr s.
Proof.
  unfold statuses_strings. rewrite forallb_forall. intros H Hd.
  specialize (H d (proj1 (list_elem_of_In _ _) Hd)). unfold status_of.
  destruct (d !! "registerStatus") as [[]|]; try discriminate; eauto.
Qed.

(** C8, the claim at two inputs.  The statistics of the empty dataset hold
    the total 0 and no status counts at all.  The one record of the second
    dataset has a null status, so it has no registerStatus; it is counted
    under [None], and nothing is counted under the sentinel. *)
Lemma statistics_miss_the_empty_and_the_null_case :
  get_statistics [] = Ok (mkStatistics 0 None) /\
  get_statistics null_status_dataset =
    Ok (mkStatistics 1 (Some [(VNone, 1%Z)])) /\
  counts_get [(VNone, 1%Z)] (VStr unclassified) 0 = 0%Z.
Proof. repeat split. Qed.

(** C8, amended: the statistics of the empty dataset are the total 0
    alone.  For every dataset that is not empty and whose records have a
    string as status or no ["registerStatus"] at all, they hold the number
    of records and a map of status counts: its keys are strings, pairwise
    different, and each occurs in the dataset; looking a status up gives the
    number of records with that status; and the sentinel counts the records
    that have no registerStatus, together with those whose status is the
    sentinel string itself.  Nothing is said of a dataset that holds a null
    status. *)
Theorem statistics_counts_statuses (σ : Store) :
  statuses_strings σ = true ->
  (σ = [] -> get_statistics σ = Ok (mkStatistics 0 None)) /\
  (σ <> [] ->
   exists counts,
     get_statistics σ =
       Ok (mkStatistics (Z.of_nat (length σ)) (Some counts)) /\
     (forall key, counts_get counts key 0 = count_status σ key) /\
     distinct_keys counts /\
     (forall key n, (key, n) ∈ counts ->
        (exists s, key = VStr s) /\
        n = count_status σ key /\ (0 < n)%Z) /\
     counts_get counts (VStr unclassified) 0 =
       Z.of_nat (length (filter (fun d => is_unclassified d) σ))).
Proof.
  intros Hs. pose proof (statuses_strings_hashable σ Hs) as Hh.
  split; [intros ->; reflexivity|]. intros Hne.
  destruct (count_loop_spec σ [] Hh) as (counts & Hrun & Hget).
  destruct (count_loop_keys σ [] counts Hrun I) as [Hd Hk].
  exists counts. split; [|split; [|split; [|split]]].
  - unfold get_statistics. destruct σ as [|d σ]; [congruence|].
    rewrite Hrun. reflexivity.
  - intros key. rewrite Hget. cbn. lia.
  - exact Hd.
  - intros key n Hin.
    destruct (Hk _ Hin) as [[m Hm]|(d & Hd1 & Hd2)]; [inversion Hm|].
    cbn in Hd2. subst key.
    assert (Hhd : hashable (status_of d) = true).
    { unfold statuses_hashable in Hh. rewrite forallb_forall in Hh.
      apply Hh, list_elem_of_In, Hd1. }
    assert (Hn : n = count_status σ (status_of d)).
    { pose proof (Hget (status_of d)) as Hg. cbn [counts_get] in Hg.
      rewrite (counts_get_entry counts _ n 0 Hd Hhd Hin) in Hg. lia. }
    split; [exact (statuses_strings_status σ d Hs Hd1)|].
    split; [exact Hn|]. rewrite Hn. unfold count_status.
    assert (Hin' : d ∈ filter (fun d' => key_eqb (status_of d') (status_of d)) σ).
    { apply list_elem_of_filter. split; [|exact Hd1].
      rewrite key_eqb_refl by exact Hhd. exact I. }
    destruct (filter _ σ); [inversion Hin'|cbn; lia].
  - rewrite Hget. cbn [counts_get]. unfold count_status.
    rewrite Z.add_0_l. do 2 f_equal.
    apply list_filter_iff. intros d. unfold status_of, is_unclassified.
    destruct (d !! "registerStatus") as [v|].
    + destruct v; cbn; reflexivity.
    + rewrite key_eqb_refl by reflexivity. reflexivity.
Qed.

(** The statistics of a dataset with a repeated status, a record without
    status and a status of its own. *)
Lemma statistics_counts_statuses_witness :
  (statuses_strings string_status_dataset = true /\
   string_status_dataset <> []) /\
  exists counts,
    get_statistics string_status_dataset =
      Ok (mkStatistics (Z.of_nat (length string_status_dataset))
            (Some counts)) /\
    (forall key, counts_get counts key 0 =
                 count_status string_status_dataset key) /\
    distinct_keys counts /\
    (forall key n, (key, n) ∈ counts ->
       (exists s, key = VStr s) /\
       n = count_status string_status_dataset key /\ (0 < n)%Z) /\
    counts_get counts (VStr unclassified) 0 =
      Z.of_nat (length (filter (fun d => is_unclassified d)
                          string_status_dataset)).
Proof.
  split; [split; [reflexivity|discriminate]|].
  apply (statistics_counts_statuses string_status_dataset);
    [reflexivity|discriminate].
Defined.

(** The counts of that dataset, in the order the statuses are met. *)
Example string_statistics_example :
  get_statistics string_status_dataset =
  Ok (mkStatistics 4
        (Some [(VStr "등록", 2%Z); (VStr unclassified, 1%Z);
               (VStr "거절", 1%Z)])).
Proof. vm_compute. reflexivity. Qed.

(** What the code does with a stored null: it is counted under [None],
    beside the sentinel. *)
Example statistics_example :
  get_statistics status_dataset =
  Ok (mkStatistics 4
        (Some [(VStr "등록", 2%Z); (VStr unclassified, 1%Z); (VNone, 1%Z)])).
Proof. vm_compute. reflexivity. Qed.

(** *** Totality *)

Lemma lacks_dict_get d key : lacks d key -> dict_get d key = VNone.
Proof. unfold lacks, dict_get. intros [-> | ->]; reflexivity. Qed.

Lemma field_contains_lacks key value d :
  lacks d key -> field_contains key value d = Ok false.
Proof.
  intros H. unfold field_contains. rewrite (lacks_dict_get d key H). reflexivity.
Qed.

Lemma code_cond_lacks codes d :
  lacks d "asignProductMainCodeList" -> code_cond codes d = Ok false.
Proof.
  intros H. unfold code_cond. rewrite (lacks_dict_get d _ H). reflexivity.
Qed.

Lemma status_cond_lacks value d :
  lacks d "registerStatus" -> status_cond value d = Ok false.
Proof.
  intros H. unfold status_cond. rewrite (lacks_dict_get d _ H). reflexivity.
Qed.

Lemma field_if_elem arg key k :
  k ∈ field_if arg key -> k = key /\ exists value, given arg = Some value.
Proof.
  unfold field_if. destruct (given arg) as [value|]; intros H.
  - apply list_elem_of_singleton in H. eauto.
  - inversion H.
Qed.

Lemma kept_false arg cond (σ : Store) i d value :
  σ !! i = Some d -> given arg = Some value -> cond value d = Ok false ->
  kept arg cond σ i = false.
Proof.
  intros Ei Hg Hc. unfold kept, passes. rewrite Hg, Ei, Hc. reflexivity.
Qed.

Lemma format_code_unparsed code : py_int code = None -> format_code code = code.
Proof. intros H. unfold format_code. rewrite H. reflexivity. Qed.

(** C9: on every dataset typed as the data model says, every query returns:
    no pass raises.  A token of the code list that is no integer stays in
    the normalized codes as it is, and a record that lacks a field a given
    criterion looks at (or both names, for the name filter) is not
    returned. *)
Theorem search_never_raises fuzz_ratio q (σ : Store) :
  dataset_typed σ = true ->
  exists res σ',
    search_searchmarks fuzz_ratio q σ = Ok (res, σ') /\
    (forall arg code,
       code ∈ code_list arg -> py_int code = None ->
       format_code code = code /\ code ∈ formatted_codes arg) /\
    (forall i d key,
       σ !! i = Some d -> key ∈ filtered_fields q -> lacks d key -> i ∉ res) /\
    (forall i d,
       σ !! i = Some d -> is_Some (given (productName q)) ->
       lacks d "productName" -> lacks d "productNameEng" -> i ∉ res).
Proof.
  intros Hσ.
  destruct (search_searchmarks_spec fuzz_ratio q σ Hσ)
    as (ns & Hrun & Hperm & _ & _).
  eexists _, _. split; [exact Hrun|]. split; [|split].
  - intros arg code Hin Hint.
    pose proof (format_code_unparsed code Hint) as Hf. split; [exact Hf|].
    unfold formatted_codes. apply list_elem_of_fmap. exists code.
    split; [symmetry; exact Hf|exact Hin].
  - intros i d key Ei Hkey Hlack Hin.
    pose proof (elem_of_sublist _ _ _ Hin (slice_to_sublist _ _)) as Hin'.
    apply elem_of_later_filters in Hin'
      as (_ & K1 & K2 & K3 & K4 & K5 & K6 & K7 & K8).
    unfold filtered_fields in Hkey. rewrite !elem_of_app in Hkey.
    destruct Hkey as [Hkey|[Hkey|[Hkey|[Hkey|[Hkey|[Hkey|[Hkey|Hkey]]]]]]];
      apply field_if_elem in Hkey as [-> [value Hg]].
    + rewrite (kept_false _ _ σ i d value Ei Hg) in K1;
        [discriminate|apply status_cond_lacks, Hlack].
    + rewrite (kept_false _ _ σ i d value Ei Hg) in K2;
        [discriminate|apply code_cond_lacks, Hlack].
    + rewrite (kept_false _ _ σ i d value Ei Hg) in K3;
        [discriminate|apply field_contains_lacks, Hlack].
    + rewrite (kept_false _ _ σ i d value Ei Hg) in K4;
        [discriminate|apply field_contains_lacks, Hlack].
    + rewrite (kept_false _ _ σ i d value Ei Hg) in K5;
        [discriminate|apply field_contains_lacks, Hlack].
    + rewrite (kept_false _ _ σ i d value Ei Hg) in K6;
        [discriminate|apply field_contains_lacks, Hlack].
    + rewrite (kept_false _ _ σ i d value Ei Hg) in K7;
        [discriminate|apply field_contains_lacks, Hlack].
    + rewrite (kept_false _ _ σ i d value Ei Hg) in K8;
        [discriminate|apply field_contains_lacks, Hlack].
  - intros i d Ei [query Hg] H1 H2 Hin.
    pose proof (elem_of_sublist _ _ _ Hin (slice_to_sublist _ _)) as Hin'.
    apply elem_of_later_filters in Hin' as (Hns & _).
    rewrite Hperm in Hns. apply list_elem_of_filter in Hns as [Hk _].
    apply Is_true_true_1 in Hk. unfold name_kept in Hk. rewrite Hg in Hk.
    destruct (use_fuzzy_search q).
    + unfold hit in Hk. rewrite Ei in Hk. unfold best_similarity in Hk.
      assert (H0 : forall key, lacks d key ->
                field_similarity fuzz_ratio query (d !! key) = 0%Q)
        by (intros key [-> | ->]; reflexivity).
      rewrite (H0 _ H1), (H0 _ H2) in Hk. discriminate.
    + unfold passes in Hk. rewrite Ei in Hk. unfold name_cond in Hk.
      rewrite !field_contains_lacks in Hk by assumption. discriminate.
Qed.

(** A query with five criteria on the example dataset. *)
Lemma search_never_raises_witness :
  dataset_typed fruit_dataset = true /\
  exists res σ',
    search_searchmarks indel_ratio busy_query fruit_dataset = Ok (res, σ') /\
    (forall arg code,
       code ∈ code_list arg -> py_int code = None ->
       format_code code = code /\ code ∈ formatted_codes arg) /\
    (forall i d key,
       fruit_dataset !! i = Some d -> key ∈ filtered_fields busy_query ->
       lacks d key -> i ∉ res) /\
    (forall i d,
       fruit_dataset !! i = Some d ->
       is_Some (given (productName busy_query)) ->
       lacks d "productName" -> lacks d "productNameEng" -> i ∉ res).
Proof.
  split; [reflexivity|].
  apply (search_never_raises indel_ratio busy_query fruit_dataset).
  reflexivity.
Defined.

(** *** Empty criteria *)

(** C10: a query with empty-string criteria runs exactly as the query with
    those criteria omitted; in particular an empty name in fuzzy mode runs
    as no name filter at all: when it returns, the store is untouched (no
    score is written) and the result is in dataset order. *)
Theorem empty_criterion_is_omitted fuzz_ratio q (σ : Store) :
  search_searchmarks fuzz_ratio (omit_empty_criteria q) σ =
    search_searchmarks fuzz_ratio q σ /\
  search_searchmarks fuzz_ratio (with_name q (Some EmptyString) true) σ =
    search_searchmarks fuzz_ratio (with_name q None false) σ /\
  match search_searchmarks fuzz_ratio (with_name q (Some EmptyString) true) σ with
  | Ok (res, σ') => σ' = σ /\ StronglySorted lt res
  | Raise _ => True
  end.
Proof.
  split; [|split].
  - rewrite !search_searchmarks_unfold, filter_passes_omit_empty. reflexivity.
  - reflexivity.
  - rewrite search_searchmarks_unfold.
    destruct (filter_passes fuzz_ratio (with_name q (Some EmptyString) true) σ)
      as [[full σ']|e] eqn:E; [|exact I].
    apply filter_passes_plain_inv in E as [-> ->]; [|left; reflexivity].
    split; [reflexivity|].
    eapply StronglySorted_sublist; [|apply (seq_increasing 0 (length σ))].
    etransitivity; [apply slice_to_sublist|].
    etransitivity; [apply later_filters_sublist|]. apply sublist_filter.
Qed.

(** ** Beyond the claims: the engine *)

(** X1: on a typed dataset a query without limit returns exactly the records
    of which every given criterion holds: the name criterion in its mode,
    the status by equality, the code list by its normalized codes, every
    other criterion as a substring of a stored string or as an element of a
    stored list. *)
Theorem search_returns_the_matching_records fuzz_ratio q (σ : Store) :
  dataset_typed σ = true ->
  exists res σ',
    search_searchmarks fuzz_ratio (with_limit q None) σ = Ok (res, σ') /\
    forall i d, σ !! i = Some d -> (i ∈ res <-> matches fuzz_ratio q d).
Proof.
  intros Hσ.
  destruct (search_searchmarks_spec fuzz_ratio (with_limit q None) σ Hσ)
    as (ns & Hrun & Hperm & _ & _).
  eexists _, _. split; [exact Hrun|]. intros i d Ei.
  pose proof (dataset_typed_lookup σ i d Hσ Ei) as Hd.
  assert (Hf : forall key, key ∈ searched_fields -> forall arg,
            kept arg (field_contains key) σ i = true <->
            when_given arg (fun v => value_in v (d !! key))).
  { intros key Hk arg. apply (kept_when_given _ _ _ σ i d Ei).
    intros value Hv. apply field_contains_true; [|exact Hv].
    apply (record_typed_field d key Hd Hk). }
  assert (Hin : forall key, In key searched_fields -> key ∈ searched_fields)
    by (intros key; apply list_elem_of_In).
  cbn [slice_to limit with_limit].
  rewrite elem_of_later_filters, Hperm, list_elem_of_filter, seq_valid, Ei.
  rewrite Is_true_true, (name_kept_matches fuzz_ratio _ σ i d Ei Hd).
  cbn [productName status applicationNumber publicationNumber
       registrationNumber internationalRegNumbers priorityClaimNumList
       asignProductMainCodeList viennaCodeList use_fuzzy_search with_limit].
  rewrite (kept_when_given (status q) status_cond _ σ i d Ei
             (fun value _ => status_cond_true value d)).
  rewrite (kept_when_given (asignProductMainCodeList q) _
             (fun v => has_code (formatted_codes v)
                         (d !! "asignProductMainCodeList")) σ i d Ei)
    by (intros value _; apply code_cond_true;
        apply (record_typed_field d _ Hd); unfold searched_fields; left).
  rewrite (Hf "applicationNumber" (Hin "applicationNumber" ltac:(cbn; tauto))).
  rewrite (Hf "publicationNumber" (Hin "publicationNumber" ltac:(cbn; tauto))).
  rewrite (Hf "registrationNumber" (Hin "registrationNumber" ltac:(cbn; tauto))).
  rewrite (Hf "internationalRegNumbers" (Hin "internationalRegNumbers" ltac:(cbn; tauto))).
  rewrite (Hf "priorityClaimNumList" (Hin "priorityClaimNumList" ltac:(cbn; tauto))).
  rewrite (Hf "viennaCodeList" (Hin "viennaCodeList" ltac:(cbn; tauto))).
  unfold matches. intuition eauto.
Qed.

Lemma no_criteria_passes fuzz_ratio q (σ : Store) :
  no_criteria q = true ->
  filter_passes fuzz_ratio q σ = Ok (seq 0 (length σ), σ).
Proof.
  destruct q as [pn st an pb rn ir pc ac vc lim fz]. unfold no_criteria. cbn.
  destruct pn; [discriminate|]. destruct st; [discriminate|].
  destruct an; [discriminate|]. destruct pb; [discriminate|].
  destruct rn; [discriminate|]. destruct ir; [discriminate|].
  destruct pc; [discriminate|]. destruct ac; [discriminate|].
  destruct vc; [discriminate|]. reflexivity.
Qed.

(** X2: when every criterion is omitted or empty, the search returns the
    whole dataset in its order, cut to the limit, and leaves the store as it
    is; this holds of any dataset, typed or not, since no record is read. *)
Theorem search_without_criteria_lists_the_dataset fuzz_ratio q (σ : Store) :
  no_criteria (omit_empty_criteria q) = true ->
  search_searchmarks fuzz_ratio q σ =
  Ok (slice_to (seq 0 (length σ)) (limit q), σ).
Proof.
  intros H. rewrite search_searchmarks_unfold, <- filter_passes_omit_empty.
  rewrite (no_criteria_passes _ _ _ H). reflexivity.
Qed.

(** The listing of a dataset on which the filters would raise. *)
Lemma search_without_criteria_lists_the_dataset_witness :
  no_criteria (omit_empty_criteria
                 (with_name (no_filter (Some 2%Z) true) (Some EmptyString) true))
    = true /\
  search_searchmarks indel_ratio
    (with_name (no_filter (Some 2%Z) true) (Some EmptyString) true)
    untyped_dataset =
  Ok (slice_to (seq 0 (length untyped_dataset)) (Some 2%Z), untyped_dataset).
Proof.
  split; [reflexivity|].
  apply (search_without_criteria_lists_the_dataset indel_ratio
           (with_name (no_filter (Some 2%Z) true) (Some EmptyString) true)
           untyped_dataset).
  reflexivity.
Defined.

(** X3: the status criterion alone returns, on any dataset whatever its
    records hold, exactly the records whose status is a string equal to the
    criterion (no substring, no case folding), in dataset order, and leaves
    the store as it is. *)
Theorem status_filter_is_exact_on_any_dataset fuzz_ratio (σ : Store) value :
  str_truthy value = true ->
  exists res,
    search_searchmarks fuzz_ratio (only_status value) σ = Ok (res, σ) /\
    StronglySorted lt res /\
    forall i d, σ !! i = Some d ->
      (i ∈ res <-> d !! "registerStatus" = Some (VStr value)).
Proof.
  intros Hv.
  assert (Hrun : search_searchmarks fuzz_ratio (only_status value) σ =
                 Ok (filter (fun i => passes (status_cond value) σ i)
                       (seq 0 (length σ)), σ)).
  { unfold search_searchmarks, filter_passes, name_filter, filter_if.
    cbn [productName status applicationNumber publicationNumber
         registrationNumber internationalRegNumbers priorityClaimNumList
         asignProductMainCodeList viennaCodeList limit use_fuzzy_search
         only_status given].
    rewrite Hv.
    rewrite (bindM_ok _ _ σ
               (filter (fun i => passes (status_cond value) σ i)
                  (seq 0 (length σ))) σ); [reflexivity|].
    rewrite (bindM_ok data_copy _ σ (seq 0 (length σ)) σ eq_refl).
    rewrite (bindM_ok _ _ σ (seq 0 (length σ)) σ eq_refl).
    rewrite (bindM_ok _ _ σ
               (filter (fun i => passes (status_cond value) σ i)
                  (seq 0 (length σ))) σ); [reflexivity|].
    apply comprehension_ok. intros i Hi. apply seq_valid in Hi as [d Ed].
    exists d. split; [exact Ed|reflexivity]. }
  eexists. split; [exact Hrun|]. split.
  - eapply StronglySorted_sublist; [apply sublist_filter|apply seq_increasing].
  - intros i d Ei. rewrite list_elem_of_filter, seq_valid, Ei.
    rewrite <- status_cond_true. unfold passes. rewrite Ei.
    destruct (status_cond value d) as [[]|]; cbn; intuition (eauto; congruence).
Qed.

(** The status filter on records that make the other filters raise: the
    status with a trailing blank and the status inside a list are no
    match. *)
Lemma status_filter_is_exact_on_any_dataset_witness :
  str_truthy "등록" = true /\
  exists res,
    search_searchmarks indel_ratio (only_status "등록") untyped_dataset =
      Ok (res, untyped_dataset) /\
    StronglySorted lt res /\
    forall i d, untyped_dataset !! i = Some d ->
      (i ∈ res <-> d !! "registerStatus" = Some (VStr "등록")).
Proof.
  split; [reflexivity|].
  apply (status_filter_is_exact_on_any_dataset indel_ratio untyped_dataset "등록").
  reflexivity.
Defined.

Example status_filter_example :
  returned (search_searchmarks indel_ratio (only_status "등록") untyped_dataset)
  = Some [0%nat] /\
  is_ok (search_searchmarks indel_ratio (only_name "a" false) untyped_dataset)
  = false.
Proof. split; vm_compute; reflexivity. Qed.

(** A fuzzy name, a status and a registration number on three records. *)
Lemma search_returns_the_matching_records_witness :
  dataset_typed registered_dataset = true /\
  exists res σ',
    search_searchmarks indel_ratio (with_limit busy_query None)
      registered_dataset = Ok (res, σ') /\
    forall i d, registered_dataset !! i = Some d ->
      (i ∈ res <-> matches indel_ratio busy_query d).
Proof.
  split; [reflexivity|].
  apply (search_returns_the_matching_records indel_ratio busy_query
           registered_dataset).
  reflexivity.
Defined.

(** X4: a search that has no fuzzy name filter (no name, an empty name, or
    the plain mode) returns on every typed dataset, in dataset order, and
    leaves the store exactly as it was. *)
Theorem plain_search_is_read_only_and_in_order fuzz_ratio q (σ : Store) :
  dataset_typed σ = true ->
  given (productName q) = None \/ use_fuzzy_search q = false ->
  exists res,
    search_searchmarks fuzz_ratio q σ = Ok (res, σ) /\
    StronglySorted lt res.
Proof.
  intros Hσ Hplain.
  destruct (search_searchmarks_spec fuzz_ratio q σ Hσ)
    as (ns & Hrun & _ & Heq & _).
  assert (Hst : final_store fuzz_ratio q σ = σ).
  { unfold final_store. destruct Hplain as [-> | ->]; [reflexivity|].
    destruct (given (productName q)); reflexivity. }
  rewrite Hst in Hrun. eexists. split; [exact Hrun|].
  eapply StronglySorted_sublist; [|apply (seq_increasing 0 (length σ))].
  etransitivity; [apply slice_to_sublist|].
  etransitivity; [apply later_filters_sublist|].
  rewrite (Heq Hplain). apply sublist_filter.
Qed.

Lemma plain_search_is_read_only_and_in_order_witness :
  (dataset_typed registered_dataset = true /\
   (given (productName (with_name busy_query (Some "apple") false)) = None \/
    use_fuzzy_search (with_name busy_query (Some "apple") false) = false)) /\
  exists res,
    search_searchmarks indel_ratio (with_name busy_query (Some "apple") false)
      registered_dataset = Ok (res, registered_dataset) /\
    StronglySorted lt res.
Proof.
  split; [split; [reflexivity|right; reflexivity]|].
  apply (plain_search_is_read_only_and_in_order indel_ratio
           (with_name busy_query (Some "apple") false) registered_dataset);
    [reflexivity|right; reflexivity].
Defined.

Lemma slice_to_length_le {A} (l : list A) (n : nat) :
  (length (slice_to l (Some (Z.of_nat n))) <= n)%nat.
Proof.
  unfold slice_to. destruct (0 <=? Z.of_nat n)%Z eqn:E.
  - rewrite Nat2Z.id, length_take. lia.
  - apply Z.leb_gt in E. lia.
Qed.

(** X5: whatever the query, the result on a typed dataset holds no record
    twice and only records of the dataset, so it is never longer than the
    dataset, and never longer than a limit that is not negative; the store
    keeps its length. *)
Theorem search_result_is_well_formed fuzz_ratio q (σ : Store) :
  dataset_typed σ = true ->
  exists res σ',
    search_searchmarks fuzz_ratio q σ = Ok (res, σ') /\
    NoDup res /\
    (forall i, i ∈ res -> is_Some (σ !! i) /\ is_Some (σ' !! i)) /\
    (length res <= length σ)%nat /\
    (forall n : nat, limit q = Some (Z.of_nat n) -> (length res <= n)%nat) /\
    length σ' = length σ.
Proof.
  intros Hσ.
  destruct (search_searchmarks_spec fuzz_ratio q σ Hσ)
    as (ns & Hrun & Hperm & _ & _).
  eexists _, _. split; [exact Hrun|].
  assert (Hsub : slice_to (later_filters q σ ns) (limit q) `sublist_of` ns).
  { etransitivity; [apply slice_to_sublist|apply later_filters_sublist]. }
  assert (Hnd : NoDup ns).
  { rewrite Hperm. apply NoDup_filter, NoDup_seq. }
  assert (Hlen : (length ns <= length σ)%nat).
  { rewrite Hperm. etransitivity; [apply length_filter|].
    rewrite length_seq. reflexivity. }
  split; [eapply sublist_NoDup; eassumption|].
  split; [|split; [|split]].
  - intros i Hi. apply (elem_of_sublist _ _ _ Hi) in Hsub.
    rewrite Hperm in Hsub. apply list_elem_of_filter in Hsub as [_ Hsub].
    apply seq_valid in Hsub. split; [exact Hsub|].
    apply lookup_lt_is_Some. rewrite final_store_length.
    apply lookup_lt_is_Some, Hsub.
  - etransitivity; [apply sublist_length, Hsub|exact Hlen].
  - intros n ->. apply slice_to_length_le.
  - apply final_store_length.
Qed.

Lemma search_result_is_well_formed_witness :
  dataset_typed fruit_dataset = true /\
  exists res σ',
    search_searchmarks indel_ratio busy_query fruit_dataset = Ok (res, σ') /\
    NoDup res /\
    (forall i, i ∈ res ->
       is_Some (fruit_dataset !! i) /\ is_Some (σ' !! i)) /\
    (length res <= length fruit_dataset)%nat /\
    (forall n : nat, limit busy_query = Some (Z.of_nat n) ->
       (length res <= n)%nat) /\
    length σ' = length fruit_dataset.
Proof.
  split; [reflexivity|].
  apply (search_result_is_well_formed indel_ratio busy_query fruit_dataset).
  reflexivity.
Defined.

(** X6: a fuzzy search on a typed dataset writes the score on every record
    that reaches the threshold, also on the records that the other criteria
    or the limit keep out of the result; it changes no other field of any
    record and leaves the records below the threshold as they were. *)
Theorem fuzzy_search_scores_every_hit fuzz_ratio q (σ : Store) query :
  dataset_typed σ = true ->
  given (productName q) = Some query ->
  use_fuzzy_search q = true ->
  exists res σ',
    search_searchmarks fuzz_ratio q σ = Ok (res, σ') /\
    forall i d, σ !! i = Some d ->
      let score := best_similarity fuzz_ratio query d in
      exists d',
        σ' !! i = Some d' /\
        (forall key, key <> "similarity_score" -> d' !! key = d !! key) /\
        ((40 <= score)%Q -> d' !! "similarity_score" = Some (VNum score)) /\
        (~ (40 <= score)%Q -> d' = d).
Proof.
  intros Hσ Hg Hf.
  destruct (search_searchmarks_spec fuzz_ratio q σ Hσ) as (ns & Hrun & _).
  eexists _, _. split; [exact Hrun|]. intros i d Ei score.
  exists (rescore fuzz_ratio query d). split; [|split; [|split]].
  - unfold final_store. rewrite Hg, Hf, list_lookup_fmap, Ei. reflexivity.
  - intros key Hkey. unfold rescore, mark. fold score.
    destruct (Qle_bool 40 score); [|reflexivity].
    apply lookup_insert_ne. congruence.
  - intros Hs. apply Qle_bool_iff in Hs. unfold rescore, mark. fold score.
    rewrite Hs. apply lookup_insert_eq.
  - intros Hs. unfold rescore. fold score.
    destruct (Qle_bool 40 score) eqn:E; [|reflexivity].
    exfalso. apply Hs, Qle_bool_iff, E.
Qed.

Lemma fuzzy_search_scores_every_hit_witness :
  (dataset_typed registered_dataset = true /\
   given (productName busy_query) = Some "apple" /\
   use_fuzzy_search busy_query = true) /\
  exists res σ',
    search_searchmarks indel_ratio busy_query registered_dataset =
      Ok (res, σ') /\
    forall i d, registered_dataset !! i = Some d ->
      let score := best_similarity indel_ratio "apple" d in
      exists d',
        σ' !! i = Some d' /\
        (forall key, key <> "similarity_score" -> d' !! key = d !! key) /\
        ((40 <= score)%Q -> d' !! "similarity_score" = Some (VNum score)) /\
        (~ (40 <= score)%Q -> d' = d).
Proof.
  split; [repeat split|].
  apply (fuzzy_search_scores_every_hit indel_ratio busy_query
           registered_dataset "apple"); reflexivity.
Defined.

(** The record named "apple" is refused, so the status criterion keeps it
    out of the result; the score 100 is on it all the same. *)
Example score_on_a_filtered_record :
  let run := search_searchmarks indel_ratio
               (mkQuery (Some "apple") (Some "등록") None None None None None
                  None None None true) registered_dataset in
  returned run = Some [0; 2]%nat /\
  match store_after run with
  | Some (_ :: d :: _) => d !! "similarity_score"
  | _ => None
  end = Some (VNum (1000 # 10)).
Proof. split; vm_compute; reflexivity. Qed.

(** *** Asking again *)

Lemma record_typed_score d v :
  record_typed (<["similarity_score" := v]> d) = record_typed d.
Proof.
  unfold record_typed, searched_fields. cbn [forallb].
  rewrite !lookup_insert_ne by discriminate. reflexivity.
Qed.

Lemma rescore_typed fuzz_ratio query d :
  record_typed (rescore fuzz_ratio query d) = record_typed d.
Proof.
  unfold rescore, mark. destruct (Qle_bool _ _); [|reflexivity].
  apply record_typed_score.
Qed.

Lemma rescore_rescore fuzz_ratio query d :
  rescore fuzz_ratio query (rescore fuzz_ratio query d) =
  rescore fuzz_ratio query d.
Proof.
  unfold rescore. destruct (Qle_bool 40 (best_similarity fuzz_ratio query d)) eqn:E.
  - assert (Hb : best_similarity fuzz_ratio query (mark fuzz_ratio query d) =
                 best_similarity fuzz_ratio query d)
      by (unfold mark; apply best_similarity_score_ne).
    rewrite Hb, E. apply mark_mark.
  - rewrite E. reflexivity.
Qed.

Lemma best_similarity_rescore fuzz_ratio query d :
  best_similarity fuzz_ratio query (rescore fuzz_ratio query d) =
  best_similarity fuzz_ratio query d.
Proof.
  unfold rescore, mark. destruct (Qle_bool _ _); [|reflexivity].
  apply best_similarity_score_ne.
Qed.

Lemma final_store_typed fuzz_ratio q (σ : Store) :
  dataset_typed σ = true -> dataset_typed (final_store fuzz_ratio q σ) = true.
Proof.
  unfold final_store, dataset_typed.
  destruct (given (productName q)); [destruct (use_fuzzy_search q)|]; try tauto.
  rewrite !forallb_forall. intros H d Hd.
  apply list_elem_of_In, list_elem_of_fmap in Hd as (d0 & -> & Hd).
  rewrite rescore_typed. apply H, list_elem_of_In, Hd.
Qed.

Lemma final_store_twice fuzz_ratio q (σ : Store) :
  final_store fuzz_ratio q (final_store fuzz_ratio q σ) =
  final_store fuzz_ratio q σ.
Proof.
  unfold final_store.
  destruct (given (productName q)); [destruct (use_fuzzy_search q)|];
    try reflexivity.
  rewrite <- list_fmap_compose. apply list_fmap_ext.
  intros i d _. apply rescore_rescore.
Qed.

Lemma name_kept_final_store fuzz_ratio q (σ : Store) i :
  name_kept fuzz_ratio q (final_store fuzz_ratio q σ) i =
  name_kept fuzz_ratio q σ i.
Proof.
  unfold name_kept.
  destruct (given (productName q)) as [query|] eqn:Eg; [|reflexivity].
  destruct (use_fuzzy_search q) eqn:Ef.
  - unfold hit, final_store. rewrite Eg, Ef, list_lookup_fmap.
    destruct (σ !! i) as [d|]; [|reflexivity]. cbn.
    rewrite best_similarity_rescore. reflexivity.
  - apply passes_final_store. intros d v. apply name_cond_score_ne.
Qed.

Lemma filter_kept_final_store fuzz_ratio arg cond q (σ : Store) (l l' : list ref) :
  pass_cond cond -> l = l' ->
  filter (fun i => kept arg cond (final_store fuzz_ratio q σ) i) l =
  filter (fun i => kept arg cond σ i) l'.
Proof.
  intros Hc <-. apply list_filter_iff. intros i.
  rewrite (kept_final_store fuzz_ratio arg cond q σ i Hc). reflexivity.
Qed.

Lemma later_filters_final_store fuzz_ratio q (σ : Store) l :
  later_filters q (final_store fuzz_ratio q σ) l = later_filters q σ l.
Proof.
  unfold later_filters. cbv zeta.
  repeat (apply filter_kept_final_store;
          [first [exact pass_cond_status | exact pass_cond_code
                 | apply pass_cond_field; unfold searched_fields;
                   rewrite !elem_of_cons; tauto]|]).
  reflexivity.
Qed.

Lemma ranked_before_asym (σ : Store) i j :
  ranked_before σ i j -> ranked_before σ j i -> i = j.
Proof.
  unfold ranked_before. intros [H1|[H1 H1']] [H2|[H2 H2']]; exfalso.
  - exact (Qlt_irrefl _ (Qlt_trans _ _ _ H1 H2)).
  - rewrite H2 in H1. exact (Qlt_irrefl _ H1).
  - rewrite H1 in H2. exact (Qlt_irrefl _ H2).
  - lia.
Qed.

(** X7: asking the same query again gives the same answer: on a typed
    dataset the store a query leaves is typed again, and the same query run
    on it returns the same result and leaves it as it is. *)
Theorem repeated_search_gives_the_same_result fuzz_ratio q (σ : Store) :
  dataset_typed σ = true ->
  exists res σ',
    search_searchmarks fuzz_ratio q σ = Ok (res, σ') /\
    dataset_typed σ' = true /\
    search_searchmarks fuzz_ratio q σ' = Ok (res, σ').
Proof.
  intros Hσ.
  destruct (search_searchmarks_spec fuzz_ratio q σ Hσ)
    as (ns & Hrun & Hperm & Heq & Hsort).
  pose proof (final_store_typed fuzz_ratio q σ Hσ) as Hσ'.
  destruct (search_searchmarks_spec fuzz_ratio q _ Hσ')
    as (ns' & Hrun' & Hperm' & Heq' & Hsort').
  rewrite final_store_twice, later_filters_final_store in Hrun'.
  rewrite final_store_twice in Hsort'. rewrite final_store_length in *.
  assert (Hf : filter (fun i => name_kept fuzz_ratio q
                                  (final_store fuzz_ratio q σ) i)
                 (seq 0 (length σ)) =
               filter (fun i => name_kept fuzz_ratio q σ i) (seq 0 (length σ))).
  { apply list_filter_iff. intros i. rewrite name_kept_final_store. reflexivity. }
  rewrite Hf in *.
  assert (Hns : ns' = ns).
  { destruct (given (productName q)) as [query|] eqn:Eg.
    - destruct (use_fuzzy_search q) eqn:Ef.
      + apply (StronglySorted_unique_strong
                 (ranked_before (final_store fuzz_ratio q σ))).
        * intros i j _ _. apply ranked_before_asym.
        * apply Hsort'; eauto.
        * apply Hsort; eauto.
        * rewrite Hperm, Hperm'. reflexivity.
      + rewrite Heq, Heq' by (right; reflexivity). reflexivity.
    - rewrite Heq, Heq' by (left; reflexivity). reflexivity. }
  rewrite Hns in Hrun'.
  eexists _, _. split; [exact Hrun|]. split; [exact Hσ'|exact Hrun'].
Qed.

Lemma repeated_search_gives_the_same_result_witness :
  dataset_typed fruit_dataset = true /\
  exists res σ',
    search_searchmarks indel_ratio (only_name "apple" true) fruit_dataset =
      Ok (res, σ') /\
    dataset_typed σ' = true /\
    search_searchmarks indel_ratio (only_name "apple" true) σ' = Ok (res, σ').
Proof.
  split; [reflexivity|].
  apply (repeated_search_gives_the_same_result indel_ratio
           (only_name "apple" true) fruit_dataset).
  reflexivity.
Defined.

(** *** One query after another *)

Lemma best_similarity_final_store fuzz_ratio q query (σ : Store) i d :
  σ !! i = Some d ->
  exists d', final_store fuzz_ratio q σ !! i = Some d' /\
             best_similarity fuzz_ratio query d' =
             best_similarity fuzz_ratio query d.
Proof.
  intros Ei. destruct (final_store_lookup fuzz_ratio q σ) as (f & Hf & Hl).
  exists (f d). rewrite Hl, Ei. split; [reflexivity|].
  destruct (Hf d) as [->|[v ->]]; [reflexivity|].
  apply best_similarity_score_ne.
Qed.

Lemma name_kept_after fuzz_ratio q1 q2 (σ : Store) i :
  name_kept fuzz_ratio q2 (final_store fuzz_ratio q1 σ) i =
  name_kept fuzz_ratio q2 σ i.
Proof.
  unfold name_kept.
  destruct (given (productName q2)) as [query|]; [|reflexivity].
  destruct (use_fuzzy_search q2).
  - unfold hit. destruct (σ !! i) as [d|] eqn:Ei.
    + destruct (best_similarity_final_store fuzz_ratio q1 query σ i d Ei)
        as (d' & -> & ->). reflexivity.
    + destruct (final_store_lookup fuzz_ratio q1 σ) as (f & _ & Hl).
      rewrite Hl, Ei. reflexivity.
  - apply passes_final_store. intros d v. apply name_cond_score_ne.
Qed.

Lemma later_filters_after fuzz_ratio q1 q2 (σ : Store) l :
  later_filters q2 (final_store fuzz_ratio q1 σ) l = later_filters q2 σ l.
Proof.
  unfold later_filters. cbv zeta.
  repeat (apply filter_kept_final_store;
          [first [exact pass_cond_status | exact pass_cond_code
                 | apply pass_cond_field; unfold searched_fields;
                   rewrite !elem_of_cons; tauto]|]).
  reflexivity.
Qed.

(** The score a fuzzy query stores on a record it lets through. *)
Lemma stored_score_of_hit fuzz_ratio q query (σ : Store) i d :
  given (productName q) = Some query -> use_fuzzy_search q = true ->
  σ !! i = Some d -> hit fuzz_ratio query σ i = true ->
  stored_score (final_store fuzz_ratio q σ) i =
  best_similarity fuzz_ratio query d.
Proof.
  intros Hg Hf Ei Hh. unfold hit in Hh. rewrite Ei in Hh.
  unfold stored_score, final_store. rewrite Hg, Hf, list_lookup_fmap, Ei.
  cbn. unfold rescore. rewrite Hh, score_key_mark. reflexivity.
Qed.

Lemma StronglySorted_impl_in {A} (R R' : relation A) (l : list A) :
  (forall x y, x ∈ l -> y ∈ l -> R x y -> R' x y) ->
  StronglySorted R l -> StronglySorted R' l.
Proof.
  intros H Hs. rewrite <- (list_fmap_id l).
  apply (StronglySorted_fmap_rel R R' id); assumption.
Qed.

Lemma lookup_score_only (f : gmap string Value -> gmap string Value) d key :
  (forall d, f d = d \/ exists v, f d = <["similarity_score" := v]> d) ->
  key <> "similarity_score" -> f d !! key = d !! key.
Proof.
  intros Hf Hk. destruct (Hf d) as [->|[v ->]]; [reflexivity|].
  apply lookup_insert_ne. congruence.
Qed.

(** X8: an earlier query changes the answer of a later one in the score
    field only.  On a typed dataset a query returns the same references in
    the same order whether it runs on the dataset as loaded or on the store
    another query has left; the records behind them agree on every field but
    [similarity_score]; a later fuzzy query returns records that are the
    same in all fields, for it writes their score anew; a later query without
    fuzzy name filter writes nothing, so it returns the records as the
    earlier query left them, its scores included. *)
Theorem earlier_search_changes_only_scores fuzz_ratio q1 q2 (σ : Store) :
  dataset_typed σ = true ->
  exists res1 σ1 res2 σ2 σ12,
    search_searchmarks fuzz_ratio q1 σ = Ok (res1, σ1) /\
    search_searchmarks fuzz_ratio q2 σ = Ok (res2, σ2) /\
    search_searchmarks fuzz_ratio q2 σ1 = Ok (res2, σ12) /\
    (forall i d2, σ2 !! i = Some d2 ->
       exists d12, σ12 !! i = Some d12 /\
         forall key, key <> "similarity_score" -> d12 !! key = d2 !! key) /\
    (is_Some (given (productName q2)) -> use_fuzzy_search q2 = true ->
     forall i, i ∈ res2 -> σ12 !! i = σ2 !! i) /\
    (given (productName q2) = None \/ use_fuzzy_search q2 = false ->
     σ2 = σ /\ σ12 = σ1).
Proof.
  intros Hσ.
  destruct (search_searchmarks_spec fuzz_ratio q1 σ Hσ) as (ns1 & Hrun1 & _).
  destruct (search_searchmarks_spec fuzz_ratio q2 σ Hσ)
    as (ns & Hrun & Hperm & Heq & Hsort).
  pose proof (final_store_typed fuzz_ratio q1 σ Hσ) as Hσ1.
  destruct (search_searchmarks_spec fuzz_ratio q2 _ Hσ1)
    as (ns' & Hrun' & Hperm' & Heq' & Hsort').
  rewrite later_filters_after in Hrun'. rewrite final_store_length in *.
  assert (Hf : filter (fun i => name_kept fuzz_ratio q2
                                  (final_store fuzz_ratio q1 σ) i)
                 (seq 0 (length σ)) =
               filter (fun i => name_kept fuzz_ratio q2 σ i) (seq 0 (length σ))).
  { apply list_filter_iff. intros i. rewrite name_kept_after. reflexivity. }
  rewrite Hf in *.
  assert (Hns : ns' = ns).
  { destruct (given (productName q2)) as [query|] eqn:Eg.
    - destruct (use_fuzzy_search q2) eqn:Ef.
      + assert (Hscore : forall i, i ∈ ns ->
                  stored_score (final_store fuzz_ratio q2
                                  (final_store fuzz_ratio q1 σ)) i =
                  stored_score (final_store fuzz_ratio q2 σ) i).
        { intros i Hi. rewrite Hperm in Hi.
          apply list_elem_of_filter in Hi as [Hk Hi].
          apply Is_true_true_1 in Hk. unfold name_kept in Hk.
          rewrite Eg, Ef in Hk. apply seq_valid in Hi as [d Ed].
          destruct (best_similarity_final_store fuzz_ratio q1 query σ i d Ed)
            as (d' & Ed' & Hb).
          rewrite (stored_score_of_hit fuzz_ratio q2 query σ i d Eg Ef Ed Hk).
          rewrite (stored_score_of_hit fuzz_ratio q2 query _ i d' Eg Ef Ed').
          - exact Hb.
          - unfold hit. rewrite Ed', Hb. unfold hit in Hk. rewrite Ed in Hk.
            exact Hk. }
        apply (StronglySorted_unique_strong
                 (ranked_before (final_store fuzz_ratio q2 σ))).
        * intros i j _ _. apply ranked_before_asym.
        * apply (StronglySorted_impl_in
                   (ranked_before (final_store fuzz_ratio q2
                                     (final_store fuzz_ratio q1 σ)))).
          -- intros i j Hi Hj. unfold ranked_before.
             rewrite Hperm', <- Hperm in Hi, Hj.
             rewrite !(Hscore _ Hi), !(Hscore _ Hj). tauto.
          -- apply Hsort'; eauto.
        * apply Hsort; eauto.
        * rewrite Hperm, Hperm'. reflexivity.
      + rewrite Heq, Heq' by (right; reflexivity). reflexivity.
    - rewrite Heq, Heq' by (left; reflexivity). reflexivity. }
  rewrite Hns in Hrun'.
  eexists _, _, _, _, _. split; [exact Hrun1|]. split; [exact Hrun|].
  split; [exact Hrun'|]. split; [|split].
  - intros i d2 E2.
    destruct (final_store_lookup fuzz_ratio q2 σ) as (f2 & Hf2 & Hl2).
    destruct (final_store_lookup fuzz_ratio q1 σ) as (f1 & Hf1 & Hl1).
    destruct (final_store_lookup fuzz_ratio q2 (final_store fuzz_ratio q1 σ))
      as (f12 & Hf12 & Hl12).
    rewrite Hl2 in E2. rewrite Hl12, Hl1.
    destruct (σ !! i) as [d|]; [|discriminate].
    cbn in E2. injection E2 as <-. exists (f12 (f1 d)).
    split; [reflexivity|]. intros key Hkey.
    rewrite (lookup_score_only f12 _ key Hf12 Hkey).
    rewrite (lookup_score_only f1 _ key Hf1 Hkey).
    rewrite (lookup_score_only f2 _ key Hf2 Hkey). reflexivity.
  - intros [query Hg] Hfz i Hi.
    assert (Hin : i ∈ ns).
    { eapply elem_of_sublist; [exact Hi|].
      etransitivity; [apply slice_to_sublist|apply later_filters_sublist]. }
    rewrite Hperm in Hin. apply list_elem_of_filter in Hin as [Hk _].
    apply Is_true_true_1 in Hk. unfold name_kept in Hk.
    rewrite Hg, Hfz in Hk. unfold hit in Hk.
    destruct (final_store_lookup fuzz_ratio q1 σ) as (f1 & Hf1 & Hl1).
    assert (E : forall τ : Store,
              final_store fuzz_ratio q2 τ = rescore fuzz_ratio query <$> τ).
    { intros τ. unfold final_store. rewrite Hg, Hfz. reflexivity. }
    rewrite !E, !list_lookup_fmap, Hl1.
    destruct (σ !! i) as [d|]; [|reflexivity]. cbn. f_equal.
    unfold rescore.
    destruct (Hf1 d) as [->|[v ->]]; [reflexivity|].
    rewrite best_similarity_score_ne, Hk. unfold mark.
    rewrite best_similarity_score_ne. apply insert_insert_eq.
  - intros Hplain.
    assert (E : forall τ : Store, final_store fuzz_ratio q2 τ = τ).
    { intros τ. unfold final_store.
      destruct Hplain as [-> | ->]; [reflexivity|].
      destruct (given (productName q2)); reflexivity. }
    rewrite !E. split; reflexivity.
Qed.

(** A fuzzy query for "applet", then the status filter: both records it
    returns carry the score of the earlier query. *)
Lemma earlier_search_changes_only_scores_witness :
  dataset_typed registered_dataset = true /\
  exists res1 σ1 res2 σ2 σ12,
    search_searchmarks indel_ratio (only_name "applet" true)
      registered_dataset = Ok (res1, σ1) /\
    search_searchmarks indel_ratio (only_status "등록") registered_dataset =
      Ok (res2, σ2) /\
    search_searchmarks indel_ratio (only_status "등록") σ1 = Ok (res2, σ12) /\
    (forall i d2, σ2 !! i = Some d2 ->
       exists d12, σ12 !! i = Some d12 /\
         forall key, key <> "similarity_score" -> d12 !! key = d2 !! key) /\
    (is_Some (given (productName (only_status "등록"))) ->
     use_fuzzy_search (only_status "등록") = true ->
     forall i, i ∈ res2 -> σ12 !! i = σ2 !! i) /\
    (given (productName (only_status "등록")) = None \/
     use_fuzzy_search (only_status "등록") = false ->
     σ2 = registered_dataset /\ σ12 = σ1).
Proof.
  split; [reflexivity|].
  apply (earlier_search_changes_only_scores indel_ratio
           (only_name "applet" true) (only_status "등록") registered_dataset).
  reflexivity.
Defined.

(** The two runs of the status filter return the same references; on the
    store the fuzzy query has left, the first of them carries its score. *)
Example stale_score_example :
  let σ1 := match store_after
                    (search_searchmarks indel_ratio (only_name "applet" true)
                       registered_dataset) with
            | Some σ1 => σ1
            | None => []
            end in
  returned (search_searchmarks indel_ratio (only_status "등록")
              registered_dataset) = Some [0; 2]%nat /\
  returned (search_searchmarks indel_ratio (only_status "등록") σ1)
    = Some [0; 2]%nat /\
  match store_after (search_searchmarks indel_ratio (only_status "등록") σ1) with
  | Some (d :: _) => d !! "similarity_score"
  | _ => None
  end = Some (VNum (1000 # 12)).
Proof. repeat split; vm_compute; reflexivity. Qed.

(** ** Beyond the claims: the statistics *)

Lemma counted_set counts key :
  counted (counts_set counts key (counts_get counts key 0 + 1)%Z) =
  (counted counts + 1)%Z.
Proof.
  induction counts as [|[k m] counts IH]; cbn; [lia|].
  destruct (key_eqb k key); cbn; [lia|].
  unfold counted in IH. rewrite IH. lia.
Qed.

Lemma count_loop_counted data : forall counts counts',
  count_loop data counts = Ok counts' ->
  counted counts' = (counted counts + Z.of_nat (length data))%Z.
Proof.
  induction data as [|d data IH]; intros counts counts' H.
  - cbn in H. injection H as <-. cbn. lia.
  - cbn [count_loop] in H. destruct (hashable (status_of d)); [|discriminate].
    rewrite (IH _ _ H), counted_set. cbn [length]. lia.
Qed.

(** X9: the counts of the statistics add up to the total: every record of a
    dataset that is not empty is counted under exactly one status. *)
Theorem statistics_counts_add_up (σ : Store) :
  statuses_hashable σ = true ->
  σ <> [] ->
  exists counts,
    get_statistics σ =
      Ok (mkStatistics (Z.of_nat (length σ)) (Some counts)) /\
    counted counts = Z.of_nat (length σ).
Proof.
  intros Hh Hne. destruct (count_loop_spec σ [] Hh) as (counts & Hrun & _).
  exists counts. split.
  - unfold get_statistics. destruct σ as [|d σ]; [congruence|].
    rewrite Hrun. reflexivity.
  - rewrite (count_loop_counted _ _ _ Hrun). reflexivity.
Qed.

Lemma statistics_counts_add_up_witness :
  (statuses_hashable status_dataset = true /\ status_dataset <> []) /\
  exists counts,
    get_statistics status_dataset =
      Ok (mkStatistics (Z.of_nat (length status_dataset)) (Some counts)) /\
    counted counts = Z.of_nat (length status_dataset).
Proof.
  split; [split; [reflexivity|discriminate]|].
  apply (statistics_counts_add_up status_dataset); [reflexivity|discriminate].
Defined.

Lemma count_loop_raises data : forall counts,
  (exists d, d ∈ data /\ hashable (status_of d) = false) ->
  count_loop data counts = Raise TypeError.
Proof.
  induction data as [|d data IH]; intros counts (d' & Hin & Hd').
  - inversion Hin.
  - cbn [count_loop]. destruct (hashable (status_of d)) eqn:E; [|reflexivity].
    apply IH. exists d'. split; [|exact Hd'].
    apply elem_of_cons in Hin as [->|Hin]; [congruence|exact Hin].
Qed.

Lemma count_loop_raise_inv data : forall counts e,
  count_loop data counts = Raise e ->
  e = TypeError /\ exists d, d ∈ data /\ hashable (status_of d) = false.
Proof.
  induction data as [|d data IH]; intros counts e H.
  - discriminate.
  - cbn [count_loop] in H. destruct (hashable (status_of d)) eqn:E.
    + destruct (IH _ _ H) as (-> & d' & Hin & Hd'). split; [reflexivity|].
      exists d'. split; [right; exact Hin|exact Hd'].
    + injection H as <-. split; [reflexivity|]. exists d. split; [left|exact E].
Qed.

(** X10: the statistics raise exactly when some record has a status that
    cannot be a dict key (a list or a dict), and then they raise
    [TypeError]; a missing status, a null or a string never makes them
    raise. *)
Theorem statistics_raise_exactly_on_unhashable_status (σ : Store) :
  (get_statistics σ = Raise TypeError <->
   exists d v, d ∈ σ /\ d !! "registerStatus" = Some v /\ hashable v = false) /\
  (forall e, get_statistics σ = Raise e -> e = TypeError) /\
  is_ok (get_statistics σ) = statuses_hashable σ.
Proof.
  assert (Hst : forall d, hashable (status_of d) = false <->
            exists v, d !! "registerStatus" = Some v /\ hashable v = false).
  { intros d. unfold status_of. destruct (d !! "registerStatus") as [v|].
    - split; [eauto|]. intros (v' & H & Hv). congruence.
    - split; [discriminate|]. intros (v' & H & _). discriminate. }
  assert (Hinv : forall e, get_statistics σ = Raise e ->
            e = TypeError /\
            exists d, d ∈ σ /\ hashable (status_of d) = false).
  { intros e H. unfold get_statistics in H. destruct σ as [|d σ]; [discriminate|].
    destruct (count_loop (d :: σ) []) as [c|e'] eqn:E; [discriminate|].
    injection H as <-. apply (count_loop_raise_inv _ _ _ E). }
  split; [|split].
  - split.
    + intros H. destruct (Hinv _ H) as (_ & d & Hin & Hd).
      apply Hst in Hd as (v & Hv1 & Hv2). eauto.
    + intros (d & v & Hin & Hv1 & Hv2).
      unfold get_statistics. destruct σ as [|d0 σ]; [inversion Hin|].
      rewrite (count_loop_raises (d0 :: σ) []); [reflexivity|].
      exists d. split; [exact Hin|]. apply Hst. eauto.
  - intros e H. apply (Hinv e H).
  - destruct (statuses_hashable σ) eqn:Eh.
    + destruct σ as [|d σ]; [reflexivity|].
      destruct (count_loop_spec (d :: σ) [] Eh) as (c & Hrun & _).
      unfold get_statistics. rewrite Hrun. reflexivity.
    + destruct (get_statistics σ) as [s|e] eqn:E; [|reflexivity].
      exfalso. unfold get_statistics in E. destruct σ as [|d σ]; [discriminate|].
      destruct (count_loop (d :: σ) []) as [c|] eqn:Ec; [|discriminate].
      assert (Hex : exists d', d' ∈ d :: σ /\ hashable (status_of d') = false).
      { unfold statuses_hashable in Eh.
        apply not_true_iff_false in Eh. rewrite forallb_forall in Eh.
        destruct (decide (Forall (fun d' => hashable (status_of d') = true)
                            (d :: σ))) as [Hall|Hnall].
        - exfalso. apply Eh. intros x Hx. rewrite Forall_forall in Hall.
          apply Hall, list_elem_of_In, Hx.
        - apply not_Forall_Exists in Hnall; [|intros x; apply _].
          apply Exists_exists in Hnall as (x & Hx & Hnx).
          exists x. split; [exact Hx|]. apply not_true_is_false, Hnx. }
      rewrite (count_loop_raises _ _ Hex) in Ec. discriminate.
Qed.

Example statistics_on_a_list_status :
  get_statistics untyped_dataset = Raise TypeError.
Proof. reflexivity. Qed.

(** ** Beyond the claims: the router *)

Lemma paginate_zero results (σ : Store) :
  paginate results 0 σ = Failed ZeroDivisionError.
Proof. reflexivity. Qed.

(** On a typed dataset both branches of the handler paginate what the engine
    returns for the query without limit. *)
Lemma router_paginates fuzz_ratio q limit (σ : Store) :
  dataset_typed σ = true ->
  exists full σ',
    search_searchmarks fuzz_ratio (with_limit q None) σ = Ok (full, σ') /\
    router_search_searchmarks fuzz_ratio q limit σ = paginate full limit σ'.
Proof.
  intros Hσ. unfold router_search_searchmarks.
  destruct (no_criteria q) eqn:En.
  - exists (seq 0 (length σ)), σ. split; [|reflexivity].
    rewrite search_searchmarks_unfold.
    rewrite (no_criteria_passes fuzz_ratio (with_limit q None) σ En).
    reflexivity.
  - destruct (search_searchmarks_spec fuzz_ratio (with_limit q None) σ Hσ)
      as (ns & Hrun & _).
    eexists _, _. split; [exact Hrun|]. rewrite Hrun. reflexivity.
Qed.

(** X11: with [limit = 0] the handler raises [ZeroDivisionError], with or
    without criteria, although the engine itself returns the empty page for
    that limit. *)
Theorem router_zero_limit_raises fuzz_ratio q (σ : Store) :
  dataset_typed σ = true ->
  router_search_searchmarks fuzz_ratio q 0 σ = Failed ZeroDivisionError /\
  returned (search_searchmarks fuzz_ratio (with_limit q (Some 0%Z)) σ) = Some [].
Proof.
  intros Hσ. split.
  - destruct (router_paginates fuzz_ratio q 0 σ Hσ) as (full & σ' & _ & ->).
    apply paginate_zero.
  - destruct (search_searchmarks_spec fuzz_ratio (with_limit q (Some 0%Z)) σ Hσ)
      as (ns & Hrun & _).
    rewrite Hrun. reflexivity.
Qed.

Lemma router_zero_limit_raises_witness :
  dataset_typed fruit_dataset = true /\
  router_search_searchmarks indel_ratio busy_query 0 fruit_dataset =
    Failed ZeroDivisionError /\
  returned (search_searchmarks indel_ratio (with_limit busy_query (Some 0%Z))
              fruit_dataset) = Some [].
Proof.
  split; [reflexivity|].
  apply (router_zero_limit_raises indel_ratio busy_query fruit_dataset).
  reflexivity.
Defined.

Lemma ceil_div_pos total limit :
  (0 < limit)%Z ->
  exists pages,
    ceil_div total limit = Some pages /\
    ((pages - 1) * limit < total <= pages * limit)%Z.
Proof.
  intros Hl. unfold ceil_div.
  destruct (limit =? 0)%Z eqn:E; [apply Z.eqb_eq in E; lia|].
  eexists. split; [reflexivity|].
  pose proof (Z.div_mod (- total) limit ltac:(lia)) as Hdm.
  pose proof (Z.mod_pos_bound (- total) limit Hl) as Hm.
  nia.
Qed.

(** X12: for a positive limit the handler answers, on a typed dataset, with
    the page the engine returns for that limit, the number of all matches
    as [total], and as [total_pages] the least number of pages of [limit]
    records that hold them all; the page holds [min limit total] records. *)
Theorem router_paginates_the_search fuzz_ratio q limit (σ : Store) :
  dataset_typed σ = true ->
  (0 < limit)%Z ->
  float_exact (Z.of_nat (length σ)) limit = true ->
  exists full σ' resp,
    search_searchmarks fuzz_ratio (with_limit q None) σ = Ok (full, σ') /\
    router_search_searchmarks fuzz_ratio q limit σ = Responded resp σ' /\
    search_searchmarks fuzz_ratio (with_limit q (Some limit)) σ =
      Ok (resp_data resp, σ') /\
    resp_total resp = Z.of_nat (length full) /\
    resp_limit resp = limit /\
    resp_data resp = take (Z.to_nat limit) full /\
    Z.of_nat (length (resp_data resp)) = Z.min limit (resp_total resp) /\
    ((resp_total_pages resp - 1) * limit < resp_total resp
       <= resp_total_pages resp * limit)%Z.
Proof.
  intros Hσ Hl _.
  destruct (router_paginates fuzz_ratio q limit σ Hσ) as (full & σ' & Hrun & Hr).
  destruct (ceil_div_pos (Z.of_nat (length full)) limit Hl) as (pages & Hc & Hp).
  assert (Hslice : slice_to full (Some limit) = take (Z.to_nat limit) full).
  { unfold slice_to. destruct (0 <=? limit)%Z eqn:E; [reflexivity|].
    apply Z.leb_gt in E. lia. }
  exists full, σ', (mkResponse (Z.of_nat (length full)) pages limit
                     (slice_to full (Some limit))).
  split; [exact Hrun|]. split; [|split; [|split; [|split; [|split; [|split]]]]].
  - rewrite Hr. unfold paginate. rewrite Hc. reflexivity.
  - rewrite search_searchmarks_unfold in Hrun |- *.
    change (filter_passes fuzz_ratio (with_limit q (Some limit)) σ)
      with (filter_passes fuzz_ratio (with_limit q None) σ).
    destruct (filter_passes fuzz_ratio (with_limit q None) σ)
      as [[l σ1]|e]; [|discriminate].
    cbn in Hrun. injection Hrun as -> ->. reflexivity.
  - reflexivity.
  - reflexivity.
  - exact Hslice.
  - cbn [resp_data resp_total]. rewrite Hslice, length_take. lia.
  - exact Hp.
Qed.

Lemma router_paginates_the_search_witness :
  (dataset_typed fruit_dataset = true /\ (0 < 2)%Z /\
   float_exact (Z.of_nat (length fruit_dataset)) 2 = true) /\
  exists full σ' resp,
    search_searchmarks indel_ratio (with_limit (only_name "apple" true) None)
      fruit_dataset = Ok (full, σ') /\
    router_search_searchmarks indel_ratio (only_name "apple" true) 2
      fruit_dataset = Responded resp σ' /\
    search_searchmarks indel_ratio
      (with_limit (only_name "apple" true) (Some 2%Z)) fruit_dataset =
      Ok (resp_data resp, σ') /\
    resp_total resp = Z.of_nat (length full) /\
    resp_limit resp = 2%Z /\
    resp_data resp = take (Z.to_nat 2) full /\
    Z.of_nat (length (resp_data resp)) = Z.min 2 (resp_total resp) /\
    ((resp_total_pages resp - 1) * 2 < resp_total resp
       <= resp_total_pages resp * 2)%Z.
Proof.
  split; [split; [reflexivity|split; [lia|reflexivity]]|].
  apply (router_paginates_the_search indel_ratio (only_name "apple" true) 2
           fruit_dataset); [reflexivity|lia|reflexivity].
Defined.

(** The three matches of the example on pages of two. *)
Example router_example :
  match router_search_searchmarks indel_ratio (only_name "apple" true) 2
          fruit_dataset with
  | Responded resp _ =>
      (resp_total resp, resp_total_pages resp, resp_limit resp, resp_data resp)
      = (3%Z, 2%Z, 2%Z, [1; 0]%nat)
  | Failed _ => False
  end.
Proof. vm_compute. reflexivity. Qed.

(** X13: a request whose criteria are all empty strings is answered like a
    request without criteria, whatever the dataset, the limit and the fuzzy
    flag: the handler tests [is None], the engine tests truthiness, and both
    ways list the dataset. *)
Theorem router_empty_criteria_as_no_criteria fuzz_ratio q limit (σ : Store) :
  no_criteria (omit_empty_criteria q) = true ->
  router_search_searchmarks fuzz_ratio q limit σ =
  router_search_searchmarks fuzz_ratio (no_filter None false) limit σ.
Proof.
  intros H. unfold router_search_searchmarks.
  change (no_criteria (no_filter None false)) with true. cbv iota.
  destruct (no_criteria q); [reflexivity|].
  rewrite search_searchmarks_unfold.
  rewrite <- (filter_passes_omit_empty fuzz_ratio (with_limit q None) σ).
  rewrite (no_criteria_passes fuzz_ratio
             (omit_empty_criteria (with_limit q None)) σ H).
  reflexivity.
Qed.

Lemma router_empty_criteria_as_no_criteria_witness :
  no_criteria (omit_empty_criteria
                 (with_name (no_filter (Some 7%Z) true) (Some EmptyString) true))
    = true /\
  router_search_searchmarks indel_ratio
    (with_name (no_filter (Some 7%Z) true) (Some EmptyString) true) 2
    untyped_dataset =
  router_search_searchmarks indel_ratio (no_filter None false) 2
    untyped_dataset.
Proof.
  split; [reflexivity|].
  apply (router_empty_criteria_as_no_criteria indel_ratio
           (with_name (no_filter (Some 7%Z) true) (Some EmptyString) true) 2
           untyped_dataset).
  reflexivity.
Defined.
